(** * go-redis-server: the server core ([server.go])

    A shallow embedding of [Server], [NewServer], [ListenAndServe], [Serve],
    [ServeClient] and [Shutdown], together with the small part of the Go
    run-time they lean on (channels, [defer], byte strings, the export rule
    for identifiers). *)

From Stdlib Require Import ZArith String Ascii List Lia DecimalString.
From stdpp Require Import base strings gmap list.
Import ListNotations.

Set Implicit Arguments.

Local Open Scope string_scope.
Local Open Scope Z_scope.
Local Open Scope list_scope.

(** ** Go run-time notions *)

(** A Go [error] is represented by its [Error()] text; the [nil] error is
    [None] at type [option error]. *)
Definition error := string.

(** A Go [(T, error)] return pair, read the way every caller in [server.go]
    reads it: the error is looked at first. *)
Inductive result (A : Type) : Type :=
| Ok (a : A)
| Err (e : error).
Arguments Ok {A} a.
Arguments Err {A} e.

(** A call either completes or panics. *)
Inductive run (A : Type) : Type :=
| Done (a : A)
| Panic (msg : string).
Arguments Done {A} a.
Arguments Panic {A} msg.

(** The only channel of [server.go] is [exitChan], on which nothing is ever
    sent: its observable state is whether it exists and whether it has been
    closed. *)
Inductive Chan : Type := ChNil | ChOpen | ChClosed.

(** [close(ch)] *)
Definition close (ch : Chan) : run Chan :=
  match ch with
  | ChNil => Panic "close of nil channel"
  | ChOpen => Done ChClosed
  | ChClosed => Panic "close of closed channel"
  end.

(** Whether [case <-ch:] of a [select] with a [default] branch is taken: a
    receive is ready on a closed channel only (no value is ever buffered). *)
Definition recvReady (ch : Chan) : bool :=
  match ch with
  | ChClosed => true
  | ChNil | ChOpen => false
  end.

Definition LF : string := String (ascii_of_nat 10) EmptyString.

(** [s[0]] as a byte value. *)
Definition byteOf (c : ascii) : Z := Z.of_N (N_of_ascii c).

(** [fmt.Sprintf("%d", n)] *)
Definition itoa (n : Z) : string := NilZero.string_of_int (Z.to_int n).

(** *** Exported identifiers

    [reflect.Type.Method] lists exported methods only.  An identifier is
    exported when its first rune is an upper-case letter; the first rune is
    obtained as [utf8.DecodeRuneInString] does. *)

Definition RuneError : Z := 65533.

Definition isCont (b : Z) : bool := (128 <=? b) && (b <=? 191).

Definition bytesOf (s : string) : list Z := map byteOf (list_ascii_of_string s).

Definition DecodeRune (bs : list Z) : Z :=
  match bs with
  | [] => RuneError
  | b0 :: t =>
    if b0 <? 128 then b0
    else if (194 <=? b0) && (b0 <=? 223) then
      match t with
      | b1 :: _ =>
        if isCont b1
        then Z.lor (Z.shiftl (Z.land b0 31) 6) (Z.land b1 63)
        else RuneError
      | _ => RuneError
      end
    else if (224 <=? b0) && (b0 <=? 239) then
      match t with
      | b1 :: b2 :: _ =>
        let lo := if b0 =? 224 then 160 else 128 in
        let hi := if b0 =? 237 then 159 else 191 in
        if (lo <=? b1) && (b1 <=? hi) && isCont b2
        then Z.lor (Z.shiftl (Z.land b0 15) 12)
               (Z.lor (Z.shiftl (Z.land b1 63) 6) (Z.land b2 63))
        else RuneError
      | _ => RuneError
      end
    else if (240 <=? b0) && (b0 <=? 244) then
      match t with
      | b1 :: b2 :: b3 :: _ =>
        let lo := if b0 =? 240 then 144 else 128 in
        let hi := if b0 =? 244 then 143 else 191 in
        if (lo <=? b1) && (b1 <=? hi) && isCont b2 && isCont b3
        then Z.lor (Z.shiftl (Z.land b0 7) 18)
               (Z.lor (Z.shiftl (Z.land b1 63) 12)
                  (Z.lor (Z.shiftl (Z.land b2 63) 6) (Z.land b3 63)))
        else RuneError
      | _ => RuneError
      end
    else RuneError
  end.

Section Exported.
(** The upper-case letters beyond ASCII (Unicode category Lu) are a table
    of the [unicode] package, taken as given.  U+FFFD, which the decoder
    answers for an empty or ill-formed string, is a symbol, not a letter. *)
Variable upperBeyondASCII : Z -> bool.

Definition IsUpper (r : Z) : bool :=
  if r <? 128 then (65 <=? r) && (r <=? 90)
  else if r =? RuneError then false
  else upperBeyondASCII r.

Definition IsExported (name : string) : bool :=
  IsUpper (DecodeRune (bytesOf name)).
End Exported.

(** ** Data declared outside [server.go] *)

(** Modelled from the spec: the [Request] type is declared outside
    [server.go]; the spec gives it a command name, ordered byte-string
    arguments and the client address.  [server.go] touches [Host] only. *)
Record Request : Type := mkRequest {
  Command : string;
  Args : list string;
  Host : string
}.

Definition setHost (clientAddr : string) (r : Request) : Request :=
  {| Command := Command r; Args := Args r; Host := clientAddr |}.

(** Modelled from the spec: a [ReplyWriter] is declared outside [server.go];
    it is any value able to write its exact protocol encoding to a stream.
    It is represented by that encoding. *)
Record ReplyWriter : Type := mkReply { wire : string }.

Section Core.

(** [reflect.Value] of a method, the adapter type [HandlerFn] and the
    application state a handler works on are opaque to [server.go]. *)
Variable Value : Type.
Variable HandlerFn : Type.
Variable App : Type.

(** [reflect.Method]: the two fields [NewServer] reads. *)
Record Method : Type := mkMethod {
  Name : string;
  Func : Value
}.

(** A handler object, seen through [reflect.TypeOf]: its method table in
    the order [Method(0)], ..., [Method(NumMethod()-1)]. *)
Record Handler : Type := mkHandler {
  methodSet : list Method
}.

(** The fields of [Config] that [NewServer] reads. *)
Record Config : Type := mkConfig {
  proto : string;
  host : string;
  port : Z;
  handler : option Handler
}.

Record Server : Type := mkServer {
  Proto : string;
  Addr : string;
  MonitorChans : list nat;
  methods : gmap string HandlerFn;
  exitChan : Chan
}.

Definition withProto (p : string) (srv : Server) : Server :=
  mkServer p (Addr srv) (MonitorChans srv) (methods srv) (exitChan srv).
Definition withAddr (a : string) (srv : Server) : Server :=
  mkServer (Proto srv) a (MonitorChans srv) (methods srv) (exitChan srv).
Definition withMonitorChans (m : list nat) (srv : Server) : Server :=
  mkServer (Proto srv) (Addr srv) m (methods srv) (exitChan srv).
Definition withMethods (m : gmap string HandlerFn) (srv : Server) : Server :=
  mkServer (Proto srv) (Addr srv) (MonitorChans srv) m (exitChan srv).
Definition withExitChan (ch : Chan) (srv : Server) : Server :=
  mkServer (Proto srv) (Addr srv) (MonitorChans srv) (methods srv) ch.

(** Collaborators of [server.go] that live in other files. *)
Variable createHandlerFn : Server -> Handler -> Value -> result HandlerFn.
Variable Register : string -> HandlerFn -> Server -> Server.
Variable Apply : Server -> Request -> App -> result ReplyWriter * App.

(** Modelled from the spec: [NewDefaultHandler] is declared outside
    [server.go]; the spec makes it a no-op handler with an empty command
    set, that is, a handler without callable operations. *)
Definition NewDefaultHandler : Handler := mkHandler [].

(** ** [Shutdown] *)

Definition Shutdown (srv : Server) : run Server :=
  match close (exitChan srv) with
  | Done ch => Done (withExitChan ch srv)
  | Panic msg => Panic msg
  end.

(** ** [NewServer] *)

(** [method.Name[0] > 'a' && method.Name[0] < 'z'] *)
Definition skipped (name : string) : run bool :=
  match name with
  | EmptyString => Panic "runtime error: index out of range [0] with length 0"
  | String c _ => Done ((97 <? byteOf c) && (byteOf c <? 122))
  end.

(** The body of [for i := 0; i < rh.NumMethod(); i++]. *)
Fixpoint registerMethods (h : Handler) (ms : list Method) (srv : Server)
  : run (result Server) :=
  match ms with
  | [] => Done (Ok srv)
  | method :: rest =>
    match skipped (Name method) with
    | Panic msg => Panic msg
    | Done true => registerMethods h rest srv
    | Done false =>
      match createHandlerFn srv h (Func method) with
      | Err e => Done (Err e)
      | Ok handlerFn =>
        registerMethods h rest (Register (Name method) handlerFn srv)
      end
    end
  end.

Definition NewServer (c : Config) : run (result Server) :=
  let srv := mkServer (proto c) "" [] ∅ ChNil in
  let srv :=
    if String.eqb (Proto srv) "unix"
    then withAddr (host c) srv
    else withAddr (host c +:+ ":" +:+ itoa (port c)) srv in
  let h := match handler c with
           | None => NewDefaultHandler
           | Some h => h
           end in
  match registerMethods h (methodSet h) srv with
  | Done (Ok srv) => Done (Ok (withExitChan ChOpen srv))
  | Done (Err e) => Done (Err e)
  | Panic msg => Panic msg
  end.


(** ** Connections

    What a session can observe of its [net.Conn]: the requests
    [parseRequest] will produce from the bytes the peer sends, in order
    (when the list is exhausted the next read blocks), and how many bytes
    the peer still takes before writes start to fail.  [journal] records,
    oldest first, what the session did to the connection. *)

Inductive ConnKind : Type :=
| UnixConn (file : result string)   (* [*net.UnixConn]; what [File()] gives *)
| OtherConn (remote : string).      (* [RemoteAddr().String()] *)

Inductive Event : Type :=
| EvParse (r : result Request)
    (* [parseRequest(conn)] returned *)
| EvReply (request : Request) (reply : ReplyWriter) (sent : string)
          (e : option error)
    (* [reply.WriteTo(conn)] for the reply to [request] put [sent] on the
       wire and returned [e] *)
| EvErrLine (sent : string)
    (* the deferred [fmt.Fprintf(conn, "-%s\n", err)] put [sent] on the wire *)
| EvClose.
    (* [conn.Close()] *)

Record Conn : Type := mkConn {
  kind : ConnKind;
  inbound : list (result Request);
  budget : option (nat * error);
  journal : list Event
}.

Definition isClose (ev : Event) : bool :=
  match ev with EvClose => true | _ => false end.

Definition closed (conn : Conn) : bool := existsb isClose (journal conn).

Definition sentBy (ev : Event) : string :=
  match ev with
  | EvReply _ _ sent _ => sent
  | EvErrLine sent => sent
  | EvParse _ | EvClose => ""
  end.

(** Everything the session put on the wire. *)
Definition written (conn : Conn) : string :=
  fold_right (fun ev acc => sentBy ev +:+ acc) "" (journal conn).

(** [conn.Write(s)]: the bytes that get through, the error, and the budget
    left. *)
Definition transmit (s : string) (conn : Conn)
  : string * option error * option (nat * error) :=
  if closed conn then ("", Some "use of closed network connection", budget conn)
  else
    match budget conn with
    | None => (s, None, None)
    | Some (k, e) =>
      if (String.length s <=? k)%nat
      then (s, None, Some ((k - String.length s)%nat, e))
      else (substring 0 k s, Some e, Some (0%nat, e))
    end.

(** [reply.WriteTo(conn)] for the reply to [request]. *)
Definition WriteTo (request : Request) (reply : ReplyWriter) (conn : Conn)
  : option error * Conn :=
  let '(sent, e, b) := transmit (wire reply) conn in
  (e, mkConn (kind conn) (inbound conn) b
             (journal conn ++ [EvReply request reply sent e])).

(** [fmt.Fprintf(conn, "-%s\n", err)]; its error is dropped. *)
Definition FprintfErr (err : error) (conn : Conn) : Conn :=
  let '(sent, _, b) := transmit ("-" +:+ err +:+ LF) conn in
  mkConn (kind conn) (inbound conn) b (journal conn ++ [EvErrLine sent]).

(** [conn.Close()] *)
Definition Close (conn : Conn) : Conn :=
  mkConn (kind conn) (inbound conn) (budget conn) (journal conn ++ [EvClose]).

Definition logParse (r : result Request) (rest : list (result Request))
           (conn : Conn) : Conn :=
  mkConn (kind conn) rest (budget conn) (journal conn ++ [EvParse r]).

(** ** [ServeClient]

    [Debugf] only logs and is left out, here and in the other functions.
    [clientChan] is made, and closed once in the deferred function; nothing
    else touches it, so it is left out as well.  A [return err] assigns the
    named result before the deferred function runs, which is why the
    deferred function sees the error of every returning path. *)

(** Where a goroutine stands: it returned, or it is parked in a call that
    has not come back (a read with nothing to read, an accept with nobody
    to accept). *)
Inductive Exec : Type :=
| Returned (err : option error)
| Blocked.

Record Session : Type := mkSession {
  exec : Exec;
  conn_of : Conn;
  app_of : App
}.

(** The [for { select { ... } }] of [ServeClient].  [exitAt i] is the state
    of [srv.exitChan] when the [select] of iteration [i] runs. *)
Fixpoint serveLoop (srv : Server) (exitAt : nat -> Chan) (clientAddr : string)
         (i : nat) (pending : list (result Request)) (conn : Conn) (app : App)
  : Session :=
  if recvReady (exitAt i) then mkSession (Returned None) conn app
  else
    match pending with
    | [] => mkSession Blocked conn app
    | Err err :: rest =>
      mkSession (Returned (Some err)) (logParse (Err err) rest conn) app
    | Ok request :: rest =>
      let conn := logParse (Ok request) rest conn in
      let request := setHost clientAddr request in
      match Apply srv request app with
      | (Err err, app) => mkSession (Returned (Some err)) conn app
      | (Ok reply, app) =>
        match WriteTo request reply conn with
        | (Some err, conn) => mkSession (Returned (Some err)) conn app
        | (None, conn) => serveLoop srv exitAt clientAddr (S i) rest conn app
        end
      end
    end.

(** The deferred function of [ServeClient]. *)
Definition deferred (err : option error) (conn : Conn) : Conn :=
  let conn := match err with
              | Some e => FprintfErr e conn
              | None => conn
              end in
  Close conn.

Definition ServeClient (srv : Server) (exitAt : nat -> Chan) (conn : Conn)
           (app : App) : Session :=
  let body :=
    match kind conn with
    | UnixConn (Err err) => mkSession (Returned (Some err)) conn app
    | UnixConn (Ok name) =>
      serveLoop srv exitAt name 0 (inbound conn) conn app
    | OtherConn remote =>
      serveLoop srv exitAt remote 0 (inbound conn) conn app
    end in
  match exec body with
  | Returned err =>
    mkSession (Returned err) (deferred err (conn_of body)) (app_of body)
  | Blocked => body
  end.


(** The client address the type switch of [ServeClient] computes. *)
Definition clientAddr (conn : Conn) : result string :=
  match kind conn with
  | UnixConn file => file
  | OtherConn remote => Ok remote
  end.

(** The loop tops a session passes through.  [loopTop addr conn0 app0 i
    conn app]: started on [conn0] and [app0], the session stands at the
    top of iteration [i] of its loop with [conn] and [app].  One round
    leads from a loop top to the next: the exit channel is not closed, a
    request is read and dispatched to a reply, and the reply is written
    without error. *)
Inductive loopTop (srv : Server) (exitAt : nat -> Chan) (addr : string)
          (conn0 : Conn) (app0 : App) : nat -> Conn -> App -> Prop :=
| top_start : loopTop srv exitAt addr conn0 app0 0 conn0 app0
| top_round (i : nat) (conn : Conn) (app : App) (request : Request)
            (rest : list (result Request)) (reply : ReplyWriter)
            (app' : App) (conn' : Conn) :
    loopTop srv exitAt addr conn0 app0 i conn app ->
    recvReady (exitAt i) = false ->
    inbound conn = Ok request :: rest ->
    Apply srv (setHost addr request) app = (Ok reply, app') ->
    WriteTo (setHost addr request) reply (logParse (Ok request) rest conn)
      = (None, conn') ->
    loopTop srv exitAt addr conn0 app0 (S i) conn' app'.

(** The requests read, and the requests whose reply went out whole, in
    the order of the journal. *)
Fixpoint parsed (evs : list Event) : list Request :=
  match evs with
  | [] => []
  | EvParse (Ok r) :: t => r :: parsed t
  | _ :: t => parsed t
  end.

Fixpoint answered (evs : list Event) : list Request :=
  match evs with
  | [] => []
  | EvReply request reply sent None :: t =>
    if String.eqb sent (wire reply) then request :: answered t else answered t
  | _ :: t => answered t
  end.

(** The replies a journal holds, whole or not. *)
Definition isReply (ev : Event) : bool :=
  match ev with EvReply _ _ _ _ => true | _ => false end.

(** Request/reply discipline of a journal, for a session whose client
    address is [addr].  [settled]: every request read has been answered
    in full, in order.  [readsWhenSettled]: whenever a read is issued,
    everything before it is settled.  [oneBehind]: at most the last
    request read is still without its reply. *)
Definition settled (addr : string) (evs : list Event) : Prop :=
  answered evs = map (setHost addr) (parsed evs).

Definition readsWhenSettled (addr : string) (evs : list Event) : Prop :=
  forall pre r post, evs = pre ++ EvParse r :: post -> settled addr pre.

Definition oneBehind (addr : string) (evs : list Event) : Prop :=
  settled addr evs \/
  exists r, map (setHost addr) (parsed evs) = answered evs ++ [setHost addr r].

(** ** [Serve] and [ListenAndServe] *)

(** A [net.Listener]: what it is bound to, the outcomes its successive
    [Accept()] calls will have (when the list is exhausted the next accept
    blocks), and whether it has been closed. *)
Record Listener : Type := mkListener {
  network : string;
  laddr : string;
  backlog : list (result Conn);
  lclosed : bool
}.

(** The acceptor goroutine: where it stands, the server it shares, its
    listener, and the sessions it started with [go srv.ServeClient(rw)],
    each with the server handed to it. *)
Record Acceptor : Type := mkAcceptor {
  astate : Exec;
  server_of : Server;
  listener_of : Listener;
  spawned : list (Server * Conn)
}.

Definition accepted (rest : list (result Conn)) (l : Listener) : Listener :=
  mkListener (network l) (laddr l) rest (lclosed l).

(** The [for { select { ... } }] of [Serve]. *)
Fixpoint acceptLoop (srv : Server) (exitAt : nat -> Chan) (i : nat)
         (pending : list (result Conn)) (l : Listener)
         (started : list (Server * Conn)) : Acceptor :=
  if recvReady (exitAt i) then mkAcceptor (Returned None) srv l started
  else
    match pending with
    | [] => mkAcceptor Blocked srv l started
    | Err err :: rest =>
      mkAcceptor (Returned (Some err)) srv (accepted rest l) started
    | Ok rw :: rest =>
      acceptLoop srv exitAt (S i) rest (accepted rest l)
                 (started ++ [(srv, rw)])
    end.

(** [l.Close()] *)
Definition CloseListener (l : Listener) : Listener :=
  mkListener (network l) (laddr l) (backlog l) true.

Definition Serve (srv : Server) (exitAt : nat -> Chan) (l : Listener)
  : Acceptor :=
  let srv := withMonitorChans [] srv in
  let a := acceptLoop srv exitAt 0 (backlog l) l [] in
  match astate a with
  | Returned err =>
    mkAcceptor (Returned err) (server_of a) (CloseListener (listener_of a))
               (spawned a)
  | Blocked => a
  end.

(** [net.Listen(network, address)]: an error, or the connections that will
    arrive on the new listener. *)
Variable netListen : string -> string -> result (list (result Conn)).

(** What [ListenAndServe] leaves behind: the server (its [Proto] may have
    been filled in) and, when the bind succeeded, the acceptor. *)
Definition ListenAndServe (srv : Server) (exitAt : nat -> Chan)
  : Server * result Acceptor :=
  let addr := Addr srv in
  let srv := if String.eqb (Proto srv) "" then withProto "tcp" srv else srv in
  let addr :=
    if String.eqb (Proto srv) "unix" && String.eqb addr "" then "/tmp/redis.sock"
    else if String.eqb addr "" then ":6389"
    else addr in
  match netListen (Proto srv) addr with
  | Err e => (srv, Err e)
  | Ok arrivals =>
    let a := Serve srv exitAt (mkListener (Proto srv) addr arrivals false) in
    (server_of a, Ok a)
  end.

End Core.

Arguments NewDefaultHandler {Value}.

(** ** The spec's reading of command registration *)

(** Follows the spec's words: every exported operation of the handler is
    treated as a command, an adapter is built for it and it is registered
    under its name; the first operation that cannot be adapted ends
    construction with its error. *)
Fixpoint registerEveryOperation {Value HandlerFn : Type}
         (createHandlerFn : Server HandlerFn -> Handler Value -> Value -> result HandlerFn)
         (Register : string -> HandlerFn -> Server HandlerFn -> Server HandlerFn)
         (h : Handler Value) (ms : list (Method Value)) (srv : Server HandlerFn)
  : run (result (Server HandlerFn)) :=
  match ms with
  | [] => Done (Ok srv)
  | method :: rest =>
    match createHandlerFn srv h (Func method) with
    | Err e => Done (Err e)
    | Ok handlerFn =>
      registerEveryOperation createHandlerFn Register h rest
                             (Register (Name method) handlerFn srv)
    end
  end.

(** The two stages of [NewServer] before its loop, named for the statements
    below: the handler it works on, and the server it starts registering
    into. *)
Definition handlerOf {Value : Type} (c : Config Value) : Handler Value :=
  match handler c with
  | None => NewDefaultHandler
  | Some h => h
  end.

Definition blank {Value : Type} (HandlerFn : Type) (c : Config Value)
  : Server HandlerFn :=
  if String.eqb (proto c) "unix"
  then mkServer (proto c) (host c) [] ∅ ChNil
  else mkServer (proto c) (host c +:+ ":" +:+ itoa (port c)) [] ∅ ChNil.

(** ** A small application, used to run the model on concrete inputs *)

Module Demo.

(** A method is described by whether its signature is one the framework
    supports, and by what calling it answers. *)
Record Sig : Type := mkSig {
  supported : bool;
  answer : result string
}.

Definition Fn : Type := Request -> result ReplyWriter.

Definition create (_ : Server Fn) (_ : Handler Sig) (v : Sig) : result Fn :=
  if supported v
  then Ok (fun _ => match answer v with
                    | Ok s => Ok (mkReply s)
                    | Err e => Err e
                    end)
  else Err "Not enough return values".

(** Modelled from the spec: [Register] is declared outside [server.go];
    the spec keys registration by the operation's exact name, a later
    registration overwriting an earlier one. *)
Definition Register (name : string) (fn : Fn) (srv : Server Fn) : Server Fn :=
  withMethods (<[name := fn]> (methods srv)) srv.

(** Modelled from the spec: [Apply] is declared outside [server.go]; the
    spec looks the command name up in the Command Table, invokes the
    adapter when it is found and answers with an unknown-command Reply
    otherwise. *)
Definition Apply (srv : Server Fn) (r : Request) (app : unit)
  : result ReplyWriter * unit :=
  match methods srv !! Command r with
  | Some fn => (fn r, app)
  | None => (Ok (mkReply ("-ERR unknown command" +:+ LF)), app)
  end.

Definition GET : Method Sig := mkMethod "GET" (mkSig true (Ok ("+v" +:+ LF))).
Definition FAIL : Method Sig := mkMethod "FAIL" (mkSig true (Err "boom")).
Definition ODD : Method Sig := mkMethod "ODD" (mkSig false (Ok "")).

Definition kv : Handler Sig := mkHandler [FAIL; GET].
Definition bad : Handler Sig := mkHandler [GET; ODD; FAIL].

Definition config (h : option (Handler Sig)) : Config Sig :=
  mkConfig "tcp" "127.0.0.1" 6389 h.

(** The server [NewServer] builds for [kv]. *)
Definition srv : Server Fn :=
  match NewServer create Register (config (Some kv)) with
  | Done (Ok s) => s
  | _ => mkServer "" "" [] ∅ ChNil
  end.

Definition req (name : string) : Request := mkRequest name [] "".

Definition client (incoming : list (result Request)) : Conn :=
  mkConn (OtherConn "10.0.0.7:5000") incoming None [].

Definition never : nat -> Chan := fun _ => ChOpen.

Definition upper (_ : Z) : bool := false.

Definition peer : string := "10.0.0.7:5000".

(** The journal and the connection of [client [GET; FAIL; GET]] after its
    first round. *)
Definition firstRound : list Event :=
  [EvParse (Ok (req "GET"));
   EvReply (setHost peer (req "GET")) (mkReply ("+v" +:+ LF)) ("+v" +:+ LF) None].

Definition afterFirst (next : list (result Request)) : Conn :=
  mkConn (OtherConn peer) next None firstRound.

(** An exit channel found closed from the start. *)
Definition stopped : nat -> Chan := fun _ => ChClosed.

(** A server put together by hand, without address. *)
Definition unixSrv : Server Fn := mkServer "unix" "" [7%nat] ∅ ChOpen.

Definition listen (_ _ : string) : result (list (result Conn)) := Ok [].

Definition idle : Listener := mkListener "unix" "/tmp/redis.sock" [] false.

End Demo.

(** ** Further notions on journals and method tables *)

(** A method the loop of [NewServer] does not pass over. *)
Definition eligible {Value : Type} (m : Method Value) : bool :=
  match skipped (Name m) with
  | Done true => false
  | _ => true
  end.

(** What the successive [parseRequest] calls of a journal returned. *)
Fixpoint reads (evs : list Event) : list (result Request) :=
  match evs with
  | [] => []
  | EvParse r :: t => r :: reads t
  | _ :: t => reads t
  end.

(** The replies handed to [WriteTo], in order. *)
Fixpoint repliesOf (evs : list Event) : list ReplyWriter :=
  match evs with
  | [] => []
  | EvReply _ reply _ _ :: t => reply :: repliesOf t
  | _ :: t => repliesOf t
  end.

(** The bytes a stretch of journal put on the wire. *)
Definition sentAll (evs : list Event) : string :=
  fold_right (fun ev acc => sentBy ev +:+ acc) "" evs.

(** The encodings of a list of replies, one after the other. *)
Definition wireAll (replies : list ReplyWriter) : string :=
  fold_right (fun reply acc => wire reply +:+ acc) "" replies.

(** Reads and reply writes, as opposed to what the deferred function does. *)
Definition isTraffic (ev : Event) : bool :=
  match ev with
  | EvParse _ | EvReply _ _ _ _ => true
  | EvErrLine _ | EvClose => false
  end.

(** What the deferred function of [ServeClient] adds to the journal, by the
    way the session stands; [sent] is what got through of the error line. *)
Definition lastWords (x : Exec) (sent : string) : list Event :=
  match x with
  | Returned (Some _) => [EvErrLine sent; EvClose]
  | Returned None => [EvClose]
  | Blocked => []
  end.

(** Dispatching a list of requests one after the other, each on the state
    the one before left, up to the first error. *)
Fixpoint replay {HandlerFn App : Type}
         (Apply : Server HandlerFn -> Request -> App -> result ReplyWriter * App)
         (srv : Server HandlerFn) (requests : list Request) (app : App)
  : list ReplyWriter * App :=
  match requests with
  | [] => ([], app)
  | request :: rest =>
    match Apply srv request app with
    | (Ok reply, app') =>
      let '(replies, app'') := replay Apply srv rest app' in
      (reply :: replies, app'')
    | (Err _, app') => ([], app')
    end
  end.

Definition isOk {A : Type} (r : result A) : bool :=
  match r with Ok _ => true | Err _ => false end.

(** ** The sample handler of [README.md] *)

Module Sample.

(** [MyHandler]: [values] is a Go map from strings to byte slices.  [None]
    is the nil map, which is what the [&MyHandler{}] of the sample's [main]
    holds; a byte slice is [None] when it is nil. *)
Record MyHandler : Type := mkMyHandler {
  values : option (gmap string (option string))
}.

(** [func (h *MyHandler) GET(key string) ([]byte, error)]: indexing a map,
    nil or not, with a key it does not hold gives the zero value. *)
Definition GET (h : MyHandler) (key : string) : option string * option error :=
  let v := match values h with
           | None => None
           | Some m => default None (m !! key)
           end in
  (v, None).

(** [func (h *MyHandler) SET(key string, value []byte) error]: assigning to
    an entry of a nil map panics. *)
Definition SET (h : MyHandler) (key : string) (value : option string)
  : run (MyHandler * option error) :=
  match values h with
  | None => Panic "assignment to entry in nil map"
  | Some m => Done (mkMyHandler (Some (<[key := value]> m)), None)
  end.

(** A run of [SET]s from a handler, in order. *)
Fixpoint setAll (h : MyHandler) (kvs : list (string * option string))
  : run MyHandler :=
  match kvs with
  | [] => Done h
  | (k, v) :: rest =>
    match SET h k v with
    | Done (h', _) => setAll h' rest
    | Panic msg => Panic msg
    end
  end.

(** The value the latest [SET] of a run gave to a key, if any did. *)
Fixpoint lastSet (kvs : list (string * option string)) (key : string)
  : option (option string) :=
  match kvs with
  | [] => None
  | (k, v) :: rest =>
    match lastSet rest key with
    | Some v' => Some v'
    | None => if String.eqb k key then Some v else None
    end
  end.

End Sample.

(** ** More concrete inputs *)

Module Run.

(** A server put together by hand: no exit channel. *)
Definition handMade : Server Demo.Fn := mkServer "tcp" "" [] ∅ ChNil.

Definition nilAt : nat -> Chan := fun _ => ChNil.

(** An exit channel closed between the first and the second loop top. *)
Definition stopAt1 : nat -> Chan :=
  fun i => match i with O => ChOpen | S _ => ChClosed end.

(** A peer that takes one more byte, then resets the connection. *)
Definition narrow : Conn :=
  mkConn (OtherConn Demo.peer) [Ok (Demo.req "GET"); Ok (Demo.req "GET")]
         (Some (1%nat, "broken pipe")) [].

(** A unix connection whose [File()] fails. *)
Definition noFile : Conn :=
  mkConn (UnixConn (Err "too many open files")) [Ok (Demo.req "GET")] None [].

(** A method table with a name the filter passes over. *)
Definition helper : Method Demo.Sig := mkMethod "helper" (Demo.mkSig false (Ok "")).
Definition mixed : list (Method Demo.Sig) := [helper; Demo.GET; Demo.FAIL].

Definition unixConfig : Config Demo.Sig :=
  mkConfig "unix" "/tmp/redis.sock" 6389 (Some Demo.kv).

(** A listener on which two clients arrive. *)
Definition busy : Listener :=
  mkListener "tcp" ":6389" [Ok (Demo.client []); Ok (Demo.client [Err "EOF"])] false.

Definition pairs : list (string * option string) :=
  [("a", Some "1"); ("b", None); ("a", Some "2")].

Definition fresh : Sample.MyHandler := Sample.mkMyHandler (Some ∅).


(** A configuration that names a stream transport and omits the address:
    no host, no port.  Its handler has no exported method, so neither
    [createHandlerFn] nor [Register] is called for it. *)
Definition noAddress : Config Demo.Sig := mkConfig "tcp" "" 0 (Some (mkHandler [])).

(** The same for the ["unix"] transport. *)
Definition noPath : Config Demo.Sig := mkConfig "unix" "" 0 (Some (mkHandler [])).

(** The servers [NewServer] builds for them. *)
Definition streamSrv : Server Demo.Fn := mkServer "tcp" ":0" [] ∅ ChOpen.
Definition socketSrv : Server Demo.Fn := mkServer "unix" "" [] ∅ ChOpen.

End Run.

(** * Properties *)

(** ** The first-character filter *)

Lemma byteOf_range (c : ascii) : 0 <= byteOf c < 256.
Proof.
  unfold byteOf. pose proof (N_ascii_bounded c) as Hb. lia.
Qed.

Lemma bytesOf_cons (c : ascii) (s : string) :
  bytesOf (String c s) = byteOf c :: bytesOf s.
Proof. reflexivity. Qed.

(** An exported name is never skipped: an ASCII upper-case letter lies below
    ['a'], and the first byte of any longer encoding lies above ['z']. *)
Lemma skipped_exported (up : Z -> bool) (name : string) :
  IsExported up name = true -> skipped name = Done false.
Proof.
  destruct name as [|c rest]; unfold IsExported.
  - intros Hup. vm_compute in Hup. discriminate.
  - rewrite bytesOf_cons. simpl skipped. intros Hup. f_equal.
    pose proof (byteOf_range c) as Hc.
    unfold DecodeRune in Hup.
    destruct (Z.ltb_spec (byteOf c) 128) as [Hlt | Hge].
    + unfold IsUpper in Hup.
      destruct (Z.ltb_spec (byteOf c) 128); [| lia].
      apply andb_true_iff in Hup as [_ Hle%Z.leb_le].
      apply andb_false_iff. left. apply Z.ltb_ge. lia.
    + apply andb_false_iff. right. apply Z.ltb_ge. lia.
Qed.

(** ** Construction of the Command Table *)

Section Construction.

Context {Value HandlerFn : Type}.
Variable createHandlerFn :
  Server HandlerFn -> Handler Value -> Value -> result HandlerFn.
Variable Register : string -> HandlerFn -> Server HandlerFn -> Server HandlerFn.

Local Abbreviation registerMethods := (registerMethods createHandlerFn Register).
Local Abbreviation registerEveryOperation :=
  (registerEveryOperation createHandlerFn Register).
Local Abbreviation NewServer := (NewServer createHandlerFn Register).

Lemma NewServer_unfold (c : Config Value) :
  NewServer c =
  match registerMethods (handlerOf c) (methodSet (handlerOf c)) (blank HandlerFn c) with
  | Done (Ok srv) => Done (Ok (withExitChan ChOpen srv))
  | Done (Err e) => Done (Err e)
  | Panic msg => Panic msg
  end.
Proof.
  unfold NewServer, handlerOf, blank. simpl.
  destruct (String.eqb (proto c) "unix"); reflexivity.
Qed.

(** Registration of a list of methods in two stretches. *)
Lemma registerMethods_app (h : Handler Value) (pre post : list (Method Value))
      (srv : Server HandlerFn) :
  registerMethods h (pre ++ post) srv =
  match registerMethods h pre srv with
  | Done (Ok srv1) => registerMethods h post srv1
  | other => other
  end.
Proof.
  revert srv. induction pre as [|m pre IH]; intros srv; simpl.
  - reflexivity.
  - destruct (skipped (Name m)) as [[|]|msg]; [apply IH | | reflexivity].
    destruct (createHandlerFn srv h (Func m)); [apply IH | reflexivity].
Qed.

Lemma registerMethods_unfiltered (up : Z -> bool) (h : Handler Value)
      (ms : list (Method Value)) (srv : Server HandlerFn) :
  Forall (fun m => IsExported up (Name m) = true) ms ->
  registerMethods h ms srv = registerEveryOperation h ms srv.
Proof.
  intros Hall. revert srv.
  induction Hall as [|m ms Hm _ IH]; intros srv; simpl.
  - reflexivity.
  - rewrite (skipped_exported up _ Hm).
    destruct (createHandlerFn srv h (Func m)); [apply IH | reflexivity].
Qed.

(** The first eligible operation that cannot be adapted decides the
    outcome. *)
Lemma registerMethods_first_failure (h : Handler Value)
      (ms : list (Method Value)) (m : Method Value) :
  Forall (fun m' => Name m' <> "") ms ->
  In m ms ->
  skipped (Name m) = Done false ->
  (forall srv, exists e, createHandlerFn srv h (Func m) = Err e) ->
  forall srv, exists pre m0 post srv1 e,
    ms = pre ++ m0 :: post /\
    registerMethods h pre srv = Done (Ok srv1) /\
    skipped (Name m0) = Done false /\
    createHandlerFn srv1 h (Func m0) = Err e /\
    registerMethods h ms srv = Done (Err e).
Proof.
  intros Hne Hin Hel Hbad.
  induction ms as [|x ms IH]; [destruct Hin |]; intros srv.
  apply Forall_cons_iff in Hne as [Hx Hne].
  simpl registerMethods at 2.
  destruct (skipped (Name x)) as [[|]|msg] eqn:Hsk.
  - (* x is passed over: it is not m *)
    destruct Hin as [-> | Hin]; [congruence |].
    destruct (IH Hne Hin srv) as (pre & m0 & post & srv1 & e & -> & Hpre & H0 & He & Hres).
    exists (x :: pre), m0, post, srv1, e. simpl. rewrite Hsk. auto.
  - destruct (createHandlerFn srv h (Func x)) as [fn | e] eqn:Hx0.
    + destruct Hin as [-> | Hin].
      { destruct (Hbad srv) as [e He]. congruence. }
      destruct (IH Hne Hin (Register (Name x) fn srv))
        as (pre & m0 & post & srv1 & e & -> & Hpre & H0 & He & Hres).
      exists (x :: pre), m0, post, srv1, e. simpl. rewrite Hsk, Hx0. auto.
    + exists [], x, ms, srv, e. simpl. auto.
  - destruct (Name x); [congruence | discriminate].
Qed.

(** [NewServer] never leaves the address of a stream-socket server empty:
    the defaults of [ListenAndServe] for such a server are reached only by
    a [Server] whose [Addr] was set by other means. *)
Remark blank_stream_Addr (c : Config Value) :
  proto c <> "unix" -> Addr (blank HandlerFn c) <> "".
Proof.
  intros Hne. unfold blank.
  destruct (String.eqb_spec (proto c) "unix") as [Heq | _]; [contradiction |].
  simpl. destruct (host c); discriminate.
Qed.

(** C2: the first-character filter of [NewServer] never passes over an
    exported operation.  For a handler whose method table holds exported
    names (the only ones [reflect] lists) no name is skipped, and the loop
    does exactly what registering every operation does: an adapter is
    built for each one in turn and it is registered under its name. *)
Theorem filter_is_inert (up : Z -> bool) (c : Config Value) :
  Forall (fun m => IsExported up (Name m) = true) (methodSet (handlerOf c)) ->
  Forall (fun m => skipped (Name m) = Done false) (methodSet (handlerOf c)) /\
  NewServer c =
  match registerEveryOperation (handlerOf c) (methodSet (handlerOf c)) (blank HandlerFn c) with
  | Done (Ok srv) => Done (Ok (withExitChan ChOpen srv))
  | Done (Err e) => Done (Err e)
  | Panic msg => Panic msg
  end.
Proof.
  intros Hall. split.
  - eapply Forall_impl; [exact Hall |].
    intros m Hm. exact (skipped_exported up _ Hm).
  - rewrite NewServer_unfold.
    now rewrite (registerMethods_unfiltered up _ _ Hall).
Qed.

(** C5: when an eligible operation of the handler cannot be adapted,
    [NewServer] returns no server but an error, namely the error
    [createHandlerFn] gave for the first eligible operation it could not
    adapt; the operations before it were registered, the ones after it
    play no part. *)
Theorem NewServer_fails_fast (c : Config Value) (m : Method Value) :
  Forall (fun m' => Name m' <> "") (methodSet (handlerOf c)) ->
  In m (methodSet (handlerOf c)) ->
  skipped (Name m) = Done false ->
  (forall srv, exists e, createHandlerFn srv (handlerOf c) (Func m) = Err e) ->
  exists pre m0 post srv1 e,
    methodSet (handlerOf c) = pre ++ m0 :: post /\
    registerMethods (handlerOf c) pre (blank HandlerFn c) = Done (Ok srv1) /\
    skipped (Name m0) = Done false /\
    createHandlerFn srv1 (handlerOf c) (Func m0) = Err e /\
    NewServer c = Done (Err e) /\
    (forall srv, NewServer c <> Done (Ok srv)).
Proof.
  intros Hne Hin Hel Hbad.
  destruct (registerMethods_first_failure _ Hne Hin Hel Hbad (blank HandlerFn c))
    as (pre & m0 & post & srv1 & e & Hms & Hpre & H0 & He & Hres).
  exists pre, m0, post, srv1, e.
  assert (HN : NewServer c = Done (Err e)).
  { rewrite NewServer_unfold. now rewrite Hres. }
  repeat split; try assumption.
  intros srv. rewrite HN. discriminate.
Qed.

(** C9: without a handler in the configuration [NewServer] takes the
    default handler, succeeds, and the server it returns has an empty
    Command Table. *)
Theorem NewServer_default_handler (c : Config Value) :
  handler c = None ->
  handlerOf c = NewDefaultHandler /\
  NewServer c = Done (Ok (withExitChan ChOpen (blank HandlerFn c))) /\
  methods (withExitChan ChOpen (blank HandlerFn c)) = ∅.
Proof.
  intros Hnone. unfold handlerOf. rewrite Hnone. split; [reflexivity |].
  split.
  - rewrite NewServer_unfold. unfold handlerOf. rewrite Hnone. reflexivity.
  - unfold blank. destruct (String.eqb (proto c) "unix"); reflexivity.
Qed.

End Construction.

(** ** The acceptor *)

Section Acceptor.

Context {HandlerFn : Type}.

(** What the accept loop keeps: the server it was given, the address the
    listener is bound to, whether the listener is closed; and every
    session it starts is handed that same server. *)
Lemma acceptLoop_frame (srv : Server HandlerFn) (exitAt : nat -> Chan)
      (pending : list (result Conn)) :
  forall (i : nat) (l : Listener) (started : list (Server HandlerFn * Conn)),
    let a := acceptLoop srv exitAt i pending l started in
    server_of a = srv /\
    network (listener_of a) = network l /\
    laddr (listener_of a) = laddr l /\
    lclosed (listener_of a) = lclosed l /\
    (Forall (fun sc => fst sc = srv) started ->
     Forall (fun sc => fst sc = srv) (spawned a)).
Proof.
  induction pending as [|[rw | err] rest IH]; intros i l started; simpl;
    destruct (recvReady (exitAt i)); simpl; try tauto.
  specialize (IH (S i) (accepted rest l) (started ++ [(srv, rw)])).
  simpl in IH. destruct IH as (Hs & Hn & Ha & Hc & Hsp).
  repeat split; try assumption.
  intros Hst. apply Hsp. apply Forall_app. split; [assumption |].
  constructor; [reflexivity | constructor].
Qed.

Lemma Serve_frame (srv : Server HandlerFn) (exitAt : nat -> Chan) (l : Listener) :
  let a := Serve srv exitAt l in
  server_of a = withMonitorChans [] srv /\
  network (listener_of a) = network l /\
  laddr (listener_of a) = laddr l /\
  Forall (fun sc => fst sc = withMonitorChans [] srv) (spawned a).
Proof.
  unfold Serve.
  destruct (acceptLoop_frame (withMonitorChans [] srv) exitAt (backlog l) 0 l [])
    as (Hs & Hn & Ha & _ & Hsp).
  specialize (Hsp ltac:(constructor)).
  destruct (astate _); simpl; auto.
Qed.

(** A returning [Serve] has run its deferred [l.Close()]. *)
Lemma Serve_returned_closed (srv : Server HandlerFn) (exitAt : nat -> Chan)
      (l : Listener) (err : option error) :
  astate (Serve srv exitAt l) = Returned err ->
  lclosed (listener_of (Serve srv exitAt l)) = true.
Proof.
  unfold Serve. destruct (astate (acceptLoop _ _ _ _ _ _)) eqn:Hst; simpl.
  - reflexivity.
  - rewrite Hst. discriminate.
Qed.

(** An acceptor that finds [exitChan] closed at its first [select]
    returns [nil] at once. *)
Lemma Serve_sees_exit (srv : Server HandlerFn) (exitAt : nat -> Chan) (l : Listener) :
  recvReady (exitAt 0%nat) = true ->
  astate (Serve srv exitAt l) = Returned None /\ spawned (Serve srv exitAt l) = [].
Proof.
  intros Hex. unfold Serve.
  destruct (backlog l) as [|[rw | err] rest]; simpl; rewrite Hex; simpl; auto.
Qed.

(** C10: [Serve] empties [MonitorChans] before its accept loop.  Whatever
    the listener does afterwards, the server the acceptor holds and the
    server handed to every session it starts have no monitor subscriber,
    so none of the channels registered before the call is among them. *)
Theorem Serve_resets_MonitorChans (srv : Server HandlerFn) (exitAt : nat -> Chan)
        (l : Listener) :
  MonitorChans (server_of (Serve srv exitAt l)) = [] /\
  Forall (fun sc => MonitorChans (fst sc) = []) (spawned (Serve srv exitAt l)) /\
  (forall ch, In ch (MonitorChans srv) ->
              ~ In ch (MonitorChans (server_of (Serve srv exitAt l)))).
Proof.
  destruct (Serve_frame srv exitAt l) as (Hs & _ & _ & Hsp).
  split; [| split].
  - now rewrite Hs.
  - eapply Forall_impl; [exact Hsp |]. intros sc Hsc. now rewrite Hsc.
  - intros ch _. rewrite Hs. simpl. tauto.
Qed.

(** The address [ListenAndServe] binds, by the server's [Addr].  Whenever
    the bind succeeds the listener is bound to the server's [Addr] if that
    is not empty, to ["/tmp/redis.sock"] if it is empty and the transport
    is ["unix"], and to [":6389"] if it is empty and the transport is
    anything else (the empty transport meaning ["tcp"]). *)
Theorem ListenAndServe_bind_address
        (netListen : string -> string -> result (list (result Conn)))
        (srv : Server HandlerFn) (exitAt : nat -> Chan) (a : Acceptor HandlerFn) :
  snd (ListenAndServe netListen srv exitAt) = Ok a ->
  (Addr srv = "" -> Proto srv = "unix" ->
   network (listener_of a) = "unix" /\ laddr (listener_of a) = "/tmp/redis.sock") /\
  (Addr srv = "" -> Proto srv <> "unix" ->
   network (listener_of a) = (if String.eqb (Proto srv) "" then "tcp" else Proto srv) /\
   laddr (listener_of a) = ":6389") /\
  (Addr srv <> "" -> laddr (listener_of a) = Addr srv).
Proof.
  unfold ListenAndServe.
  set (srv1 := if String.eqb (Proto srv) "" then withProto "tcp" srv else srv).
  set (addr := if (String.eqb (Proto srv1) "unix" && String.eqb (Addr srv) "")%bool
               then "/tmp/redis.sock"
               else if String.eqb (Addr srv) "" then ":6389" else Addr srv).
  destruct (netListen (Proto srv1) addr) as [arrivals | e]; simpl; [| discriminate].
  intros [= <-].
  destruct (Serve_frame srv1 exitAt (mkListener (Proto srv1) addr arrivals false))
    as (_ & Hn & Ha & _).
  simpl in Hn, Ha. rewrite Hn, Ha. clear Hn Ha.
  assert (Hp : Proto srv1 = if String.eqb (Proto srv) "" then "tcp" else Proto srv).
  { unfold srv1. destruct (String.eqb (Proto srv) ""); reflexivity. }
  subst addr. rewrite Hp. clear Hp srv1.
  split; [| split].
  - intros -> ->. simpl. auto.
  - intros -> Hne. split; [reflexivity |].
    destruct (String.eqb_spec (Proto srv) "") as [_ | _]; [reflexivity |].
    destruct (String.eqb_spec (Proto srv) "unix"); [contradiction | reflexivity].
  - intros Hne.
    destruct (String.eqb_spec (Addr srv) ""); [contradiction |].
    rewrite andb_false_r. reflexivity.
Qed.

End Acceptor.

(** ** Sessions *)

Section Sessions.

Context {HandlerFn App : Type}.
Variable Apply : Server HandlerFn -> Request -> App -> result ReplyWriter * App.
Variable srv : Server HandlerFn.
Variable exitAt : nat -> Chan.

Local Abbreviation serveLoop := (serveLoop Apply srv exitAt).
Local Abbreviation ServeClient := (ServeClient Apply srv exitAt).
Local Abbreviation loopTop := (loopTop Apply srv exitAt).

(** *** The connection primitives *)

Lemma closed_Close (conn : Conn) : closed (Close conn) = true.
Proof.
  unfold closed, Close. simpl. rewrite existsb_app. simpl.
  apply orb_true_r.
Qed.

Lemma transmit_whole (s : string) (conn : Conn) (sent : string)
      (b : option (nat * error)) :
  transmit s conn = (sent, None, b) -> sent = s.
Proof.
  unfold transmit. destruct (closed conn); [discriminate |].
  destruct (budget conn) as [[k e] |].
  - destruct (String.length s <=? k)%nat; [| discriminate]. congruence.
  - congruence.
Qed.

Lemma transmit_unlimited (s : string) (conn : Conn) :
  closed conn = false -> budget conn = None ->
  transmit s conn = (s, None, None).
Proof. unfold transmit. now intros -> ->. Qed.

Lemma WriteTo_journal (request : Request) (reply : ReplyWriter) (conn : Conn) :
  exists sent,
    journal (snd (WriteTo request reply conn)) =
      journal conn ++ [EvReply request reply sent (fst (WriteTo request reply conn))] /\
    inbound (snd (WriteTo request reply conn)) = inbound conn /\
    kind (snd (WriteTo request reply conn)) = kind conn /\
    (fst (WriteTo request reply conn) = None -> sent = wire reply).
Proof.
  unfold WriteTo. destruct (transmit (wire reply) conn) as [[sent e] b] eqn:Ht.
  exists sent. simpl. repeat split.
  intros ->. exact (transmit_whole _ _ Ht).
Qed.

Lemma FprintfErr_journal (err : error) (conn : Conn) :
  exists sent,
    journal (FprintfErr err conn) = journal conn ++ [EvErrLine sent] /\
    inbound (FprintfErr err conn) = inbound conn /\
    (closed conn = false -> budget conn = None -> sent = "-" +:+ err +:+ LF).
Proof.
  unfold FprintfErr.
  destruct (transmit ("-" +:+ err +:+ LF) conn) as [[sent e] b] eqn:Ht.
  exists sent. simpl. repeat split.
  intros Hc Hb. rewrite (transmit_unlimited _ _ Hc Hb) in Ht. congruence.
Qed.

(** What the deferred function leaves on a connection after an error. *)
Lemma deferred_error (err : error) (conn : Conn) :
  exists sent,
    journal (deferred (Some err) conn) = journal conn ++ [EvErrLine sent; EvClose] /\
    inbound (deferred (Some err) conn) = inbound conn /\
    (closed conn = false -> budget conn = None -> sent = "-" +:+ err +:+ LF).
Proof.
  destruct (FprintfErr_journal err conn) as (sent & Hj & Hi & Hs).
  exists sent. unfold deferred, Close. simpl. rewrite Hj, Hi.
  rewrite <- app_assoc. auto.
Qed.

Lemma closed_deferred (err : option error) (conn : Conn) :
  closed (deferred err conn) = true.
Proof. unfold deferred. apply closed_Close. Qed.

Lemma closed_logParse (r : result Request) (rest : list (result Request))
      (conn : Conn) :
  closed (logParse r rest conn) = closed conn.
Proof.
  unfold closed, logParse. simpl. rewrite existsb_app. simpl.
  now rewrite !orb_false_r.
Qed.

(** *** The shape of [ServeClient] *)

Lemma ServeClient_unfold (conn : Conn) (app : App) (addr : string) :
  clientAddr conn = Ok addr ->
  ServeClient conn app =
  let body := serveLoop addr 0 (inbound conn) conn app in
  match exec body with
  | Returned err =>
    mkSession (Returned err) (deferred err (conn_of body)) (app_of body)
  | Blocked => body
  end.
Proof.
  unfold clientAddr, ServeClient.
  destruct (kind conn) as [[name | e] | remote]; intros [= <-]; reflexivity.
Qed.

(** A session at a loop top behaves from there as the whole loop does. *)
Lemma loopTop_serveLoop (addr : string) (conn0 : Conn) (app0 : App)
      (i : nat) (conn : Conn) (app : App) :
  loopTop addr conn0 app0 i conn app ->
  serveLoop addr 0 (inbound conn0) conn0 app0 =
  serveLoop addr i (inbound conn) conn app.
Proof.
  induction 1 as [| i conn app request rest reply app' conn' _ IH Hex Hin Hap Hw].
  - reflexivity.
  - rewrite IH, Hin. simpl. rewrite Hex, Hap, Hw.
    destruct (WriteTo_journal (setHost addr request) reply
                              (logParse (Ok request) rest conn))
      as (_ & _ & Hi & _).
    rewrite Hw in Hi. simpl in Hi. now rewrite Hi.
Qed.

Lemma serveLoop_exit (addr : string) (i : nat) (pending : list (result Request))
      (conn : Conn) (app : App) :
  recvReady (exitAt i) = true ->
  serveLoop addr i pending conn app = mkSession (Returned None) conn app.
Proof.
  intros Hex. destruct pending as [|[request | err] rest]; simpl; now rewrite Hex.
Qed.

(** A session that finds [exitChan] closed at its first [select] returns
    [nil] without reading, and closes the connection. *)
Lemma ServeClient_sees_exit (conn : Conn) (app : App) (addr : string) :
  clientAddr conn = Ok addr ->
  recvReady (exitAt 0%nat) = true ->
  ServeClient conn app = mkSession (Returned None) (Close conn) app.
Proof.
  intros Haddr Hex. rewrite ServeClient_unfold with (addr := addr) by assumption.
  rewrite serveLoop_exit by assumption. reflexivity.
Qed.

(** A returning [ServeClient] has run its deferred function. *)
Lemma ServeClient_returned_closed (conn : Conn) (app : App) (err : option error) :
  exec (ServeClient conn app) = Returned err ->
  closed (conn_of (ServeClient conn app)) = true.
Proof.
  unfold ServeClient. cbv zeta.
  generalize (match kind conn with
              | UnixConn (Ok name) => serveLoop name 0 (inbound conn) conn app
              | UnixConn (Err e) => mkSession (Returned (Some e)) conn app
              | OtherConn remote => serveLoop remote 0 (inbound conn) conn app
              end).
  intros body. destruct (exec body) eqn:Hb.
  - intros _. simpl. apply closed_deferred.
  - rewrite Hb. discriminate.
Qed.

(** C1 (amended): a dispatch error ends the session.  When, at any loop
    top of a session, the exit channel is not closed, a request is read
    and [Apply] returns an error for it, [ServeClient] returns that
    error: after the read the only things done to the connection are the
    deferred error line and the close, and the requests still to come are
    never read.  On a connection that takes every byte the line is
    ["-" ++ err ++ "\n"]. *)
Theorem dispatch_error_ends_session
        (addr : string) (conn0 : Conn) (app0 : App) (i : nat) (conn : Conn)
        (app : App) (request : Request) (rest : list (result Request))
        (err : error) (app' : App) :
  clientAddr conn0 = Ok addr ->
  loopTop addr conn0 app0 i conn app ->
  recvReady (exitAt i) = false ->
  inbound conn = Ok request :: rest ->
  Apply srv (setHost addr request) app = (Err err, app') ->
  exists sent,
    exec (ServeClient conn0 app0) = Returned (Some err) /\
    app_of (ServeClient conn0 app0) = app' /\
    journal (conn_of (ServeClient conn0 app0)) =
      journal conn ++ [EvParse (Ok request); EvErrLine sent; EvClose] /\
    inbound (conn_of (ServeClient conn0 app0)) = rest /\
    closed (conn_of (ServeClient conn0 app0)) = true /\
    (closed conn = false -> budget conn = None -> sent = "-" +:+ err +:+ LF).
Proof.
  intros Haddr Htop Hex Hin Hap.
  rewrite ServeClient_unfold with (addr := addr) by assumption.
  rewrite (loopTop_serveLoop Htop), Hin. simpl. rewrite Hex, Hap.
  cbn [exec conn_of app_of].
  destruct (deferred_error err (logParse (Ok request) rest conn))
    as (sent & Hj & Hi & Hs).
  exists sent. rewrite Hj, Hi, closed_deferred. simpl.
  rewrite <- app_assoc. repeat split.
  intros Hc Hb. apply Hs; [now rewrite closed_logParse | exact Hb].
Qed.

(** C4 (amended): a read failure ends the session, with the error line.
    When, at any loop top of a session, the exit channel is not closed
    and [parseRequest] fails, [ServeClient] returns that error: no reply
    is written, but the deferred function writes the error line before
    it closes the connection.  On a connection that takes every byte the
    line is ["-" ++ err ++ "\n"]. *)
Theorem read_failure_ends_session
        (addr : string) (conn0 : Conn) (app0 : App) (i : nat) (conn : Conn)
        (app : App) (rest : list (result Request)) (err : error) :
  clientAddr conn0 = Ok addr ->
  loopTop addr conn0 app0 i conn app ->
  recvReady (exitAt i) = false ->
  inbound conn = Err err :: rest ->
  exists sent,
    exec (ServeClient conn0 app0) = Returned (Some err) /\
    app_of (ServeClient conn0 app0) = app /\
    journal (conn_of (ServeClient conn0 app0)) =
      journal conn ++ [EvParse (Err err); EvErrLine sent; EvClose] /\
    closed (conn_of (ServeClient conn0 app0)) = true /\
    (closed conn = false -> budget conn = None -> sent = "-" +:+ err +:+ LF).
Proof.
  intros Haddr Htop Hex Hin.
  rewrite ServeClient_unfold with (addr := addr) by assumption.
  rewrite (loopTop_serveLoop Htop), Hin. simpl. rewrite Hex.
  cbn [exec conn_of app_of].
  destruct (deferred_error err (logParse (Err err) rest conn))
    as (sent & Hj & _ & Hs).
  exists sent. rewrite Hj, closed_deferred. simpl.
  rewrite <- app_assoc. repeat split.
  intros Hc Hb. apply Hs; [now rewrite closed_logParse | exact Hb].
Qed.

(** C7: every return closes.  Whenever [Serve] returns, with [nil] after
    a shutdown or with an accept error, its listener is closed; whenever
    [ServeClient] returns, with [nil] after a shutdown or with a read,
    dispatch or write error, its connection is closed. *)
Theorem every_exit_closes (l : Listener) (conn : Conn) (app : App)
        (aerr serr : option error) :
  (astate (Serve srv exitAt l) = Returned aerr ->
   lclosed (listener_of (Serve srv exitAt l)) = true) /\
  (exec (ServeClient conn app) = Returned serr ->
   closed (conn_of (ServeClient conn app)) = true).
Proof.
  split.
  - apply Serve_returned_closed.
  - apply ServeClient_returned_closed.
Qed.

(** *** Request/reply discipline *)

Lemma parsed_app (l1 l2 : list Event) : parsed (l1 ++ l2) = parsed l1 ++ parsed l2.
Proof.
  induction l1 as [|[[r | e] | | |] l1 IH]; simpl; rewrite ?IH; reflexivity.
Qed.

Lemma answered_app (l1 l2 : list Event) :
  answered (l1 ++ l2) = answered l1 ++ answered l2.
Proof.
  induction l1 as [|[| request reply sent [e |] | |] l1 IH]; simpl;
    rewrite ?IH; try reflexivity.
  destruct (String.eqb sent (wire reply)); reflexivity.
Qed.

Section Discipline.

Variable addr : string.

Lemma readsWhenSettled_nil : readsWhenSettled addr [].
Proof. intros [|x pre] r post Heq; discriminate. Qed.

Lemma readsWhenSettled_snoc (evs : list Event) (ev : Event) :
  readsWhenSettled addr evs ->
  (forall r, ev = EvParse r -> settled addr evs) ->
  readsWhenSettled addr (evs ++ [ev]).
Proof.
  intros Hevs Hev pre r post Heq.
  destruct (exists_last (l := EvParse r :: post) ltac:(discriminate))
    as (front & x & Hlast).
  destruct post as [|y post].
  - apply app_inj_tail in Heq as [-> ->]. now apply (Hev r).
  - assert (Hsplit : exists post', y :: post = post' ++ [x]).
    { destruct (exists_last (l := y :: post) ltac:(discriminate))
        as (post' & x' & Hp).
      exists post'. rewrite Hp in Hlast.
      change (EvParse r :: post' ++ [x']) with ((EvParse r :: post') ++ [x'])
        in Hlast.
      apply app_inj_tail in Hlast as [_ ->]. exact Hp. }
    destruct Hsplit as (post' & Hp). rewrite Hp in Heq.
    change (pre ++ EvParse r :: post' ++ [x])
      with (pre ++ (EvParse r :: post') ++ [x]) in Heq.
    rewrite app_assoc in Heq.
    apply app_inj_tail in Heq as [Heq _].
    exact (Hevs pre r post' Heq).
Qed.

(** One trip through the loop keeps the discipline. *)
Lemma serveLoop_discipline (pending : list (result Request)) :
  forall (i : nat) (conn : Conn) (app : App) (j0 evs : list Event),
    journal conn = j0 ++ evs ->
    readsWhenSettled addr evs -> settled addr evs ->
    exists evs',
      journal (conn_of (serveLoop addr i pending conn app)) = j0 ++ evs' /\
      readsWhenSettled addr evs' /\ oneBehind addr evs'.
Proof.
  induction pending as [|[request | err] rest IH];
    intros i conn app j0 evs Hj Hreads Hset; simpl;
    destruct (recvReady (exitAt i)); simpl;
    try (exists evs; split; [exact Hj | split; [exact Hreads | now left]]).
  - (* a request is read *)
    set (evs1 := evs ++ [EvParse (Ok request)]).
    assert (Hreads1 : readsWhenSettled addr evs1).
    { apply readsWhenSettled_snoc; auto. }
    assert (Hbehind1 : map (setHost addr) (parsed evs1) =
                       answered evs1 ++ [setHost addr request]).
    { unfold evs1. rewrite parsed_app, answered_app, map_app. simpl.
      rewrite app_nil_r. now rewrite Hset. }
    destruct (Apply srv (setHost addr request) app) as [[reply | err] app'].
    + destruct (WriteTo_journal (setHost addr request) reply
                                (logParse (Ok request) rest conn))
        as (sent & Hw & _ & _ & Hwhole).
      destruct (WriteTo (setHost addr request) reply
                        (logParse (Ok request) rest conn)) as [[e |] conn'];
        simpl in Hw, Hwhole.
      * (* the write failed *)
        exists (evs1 ++ [EvReply (setHost addr request) reply sent (Some e)]).
        simpl. rewrite Hw, Hj. unfold evs1. rewrite <- !app_assoc.
        split; [reflexivity |]. rewrite app_assoc. fold evs1. split.
        -- apply readsWhenSettled_snoc; [exact Hreads1 | discriminate].
        -- right. exists request.
           rewrite parsed_app, answered_app. simpl. now rewrite !app_nil_r.
      * (* the reply went out: next iteration *)
        specialize (Hwhole eq_refl). subst sent.
        apply (IH (S i) conn' app' j0
                  (evs1 ++ [EvReply (setHost addr request) reply (wire reply) None])).
        -- rewrite Hw. simpl. rewrite Hj. unfold evs1.
           now rewrite <- !app_assoc.
        -- apply readsWhenSettled_snoc; [exact Hreads1 | discriminate].
        -- unfold settled. rewrite parsed_app, answered_app. simpl.
           rewrite String.eqb_refl, app_nil_r. now rewrite Hbehind1.
    + exists evs1. simpl. rewrite Hj. unfold evs1. rewrite <- app_assoc.
      split; [reflexivity |]. split; [exact Hreads1 |].
      right. now exists request.
  - (* the read failed *)
    exists (evs ++ [EvParse (Err err)]). simpl. rewrite Hj, <- app_assoc.
    split; [reflexivity |]. split.
    + apply readsWhenSettled_snoc; auto.
    + left. unfold settled. rewrite parsed_app, answered_app. simpl.
      now rewrite !app_nil_r.
Qed.

(** Events that are neither reads nor replies do not disturb it. *)
Lemma discipline_tail (tail : list Event) :
  forall evs,
    readsWhenSettled addr evs -> oneBehind addr evs ->
    Forall (fun ev => isReply ev = false /\ forall r, ev <> EvParse r) tail ->
    readsWhenSettled addr (evs ++ tail) /\ oneBehind addr (evs ++ tail).
Proof.
  induction tail as [|ev tail IH]; intros evs Hreads Hbehind Htail.
  - now rewrite app_nil_r.
  - apply Forall_cons_iff in Htail as [[Hrep Hnp] Htail].
    change (ev :: tail) with ([ev] ++ tail). rewrite app_assoc.
    apply IH; [| | exact Htail].
    + apply readsWhenSettled_snoc; [exact Hreads |].
      intros r ->. now destruct (Hnp r).
    + assert (Hp : parsed (evs ++ [ev]) = parsed evs).
      { rewrite parsed_app.
        destruct ev as [r | | |]; simpl; try apply app_nil_r.
        now destruct (Hnp r). }
      assert (Ha : answered (evs ++ [ev]) = answered evs).
      { rewrite answered_app.
        destruct ev; simpl; try apply app_nil_r. discriminate. }
      unfold oneBehind, settled in *. now rewrite Hp, Ha.
Qed.

End Discipline.

(** C6: no pipelining.  In what a session does to its connection, the
    replies written in full answer the requests read, one for one and in
    the same order; at most the last request read is without its reply;
    and at every read, every request read before has had its reply
    written in full. *)
Theorem no_pipelining (conn : Conn) (app : App) (addr : string) :
  clientAddr conn = Ok addr ->
  exists evs,
    journal (conn_of (ServeClient conn app)) = journal conn ++ evs /\
    readsWhenSettled addr evs /\
    oneBehind addr evs.
Proof.
  intros Haddr. rewrite ServeClient_unfold with (addr := addr) by assumption.
  destruct (@serveLoop_discipline addr (inbound conn) 0%nat conn app
              (journal conn) [] (eq_sym (app_nil_r _))
              (readsWhenSettled_nil addr) eq_refl)
    as (evs & Hj & Hreads & Hbehind).
  cbv zeta. destruct (exec (serveLoop addr 0 (inbound conn) conn app)).
  - (* returned: the deferred function adds no read and no reply *)
    assert (Hd : exists tail,
               journal (deferred err (conn_of (serveLoop addr 0 (inbound conn) conn app)))
               = journal (conn_of (serveLoop addr 0 (inbound conn) conn app)) ++ tail /\
               Forall (fun ev => isReply ev = false /\ forall r, ev <> EvParse r) tail).
    { destruct err as [e |].
      - destruct (deferred_error e (conn_of (serveLoop addr 0 (inbound conn) conn app)))
          as (sent & Hd & _).
        exists [EvErrLine sent; EvClose]. split; [exact Hd |].
        repeat constructor; discriminate.
      - exists [EvClose]. split; [reflexivity |].
        repeat constructor; discriminate. }
    destruct Hd as (tail & Hd & Htail).
    exists (evs ++ tail). cbn [conn_of]. rewrite Hd, Hj, <- app_assoc.
    split; [reflexivity |].
    now apply discipline_tail.
  - exists evs. auto.
Qed.

End Sessions.

(** ** The shutdown mark *)

Section ShutdownCoordinator.

Context {Value HandlerFn App : Type}.
Variable createHandlerFn :
  Server HandlerFn -> Handler Value -> Value -> result HandlerFn.
Variable Register : string -> HandlerFn -> Server HandlerFn -> Server HandlerFn.
Variable Apply : Server HandlerFn -> Request -> App -> result ReplyWriter * App.

Lemma NewServer_exitChan (c : Config Value) (srv : Server HandlerFn) :
  NewServer createHandlerFn Register c = Done (Ok srv) ->
  exitChan srv = ChOpen.
Proof.
  rewrite NewServer_unfold.
  destruct (registerMethods _ _ _ _ _) as [[srv0 | e] | msg];
    [| discriminate | discriminate].
  intros [= <-]. reflexivity.
Qed.

(** C3: the shutdown mark can be set once.  On a server built by
    [NewServer] the exit channel is open and no loop takes its exit
    branch; the first [Shutdown] closes it, after which an acceptor and a
    session that reach their loop top return [nil]; a second [Shutdown]
    does not return: it panics. *)
Theorem Shutdown_once (c : Config Value) (srv : Server HandlerFn) :
  NewServer createHandlerFn Register c = Done (Ok srv) ->
  recvReady (exitChan srv) = false /\
  exists srv',
    Shutdown srv = Done srv' /\
    recvReady (exitChan srv') = true /\
    (forall exitAt l,
        exitAt 0%nat = exitChan srv' ->
        astate (Serve srv' exitAt l) = Returned None) /\
    (forall exitAt conn (app : App) addr,
        clientAddr conn = Ok addr ->
        exitAt 0%nat = exitChan srv' ->
        exec (ServeClient Apply srv' exitAt conn app) = Returned None) /\
    Shutdown srv' = Panic "close of closed channel" /\
    (forall srv'', Shutdown srv' <> Done srv'').
Proof.
  intros Hnew. pose proof (NewServer_exitChan _ Hnew) as Hch.
  split; [now rewrite Hch |].
  exists (withExitChan ChClosed srv). unfold Shutdown. rewrite Hch. simpl.
  repeat split.
  - intros exitAt l Hex. apply Serve_sees_exit. now rewrite Hex.
  - intros exitAt conn app addr Haddr Hex.
    rewrite ServeClient_sees_exit with (addr := addr);
      [reflexivity | assumption | now rewrite Hex].
  - discriminate.
Qed.

End ShutdownCoordinator.

(** * The model at work *)

(** The loop top after the first round of a session on [GET; ...]. *)
Lemma afterFirst_loopTop (next : list (result Request)) :
  loopTop Demo.Apply Demo.srv Demo.never Demo.peer
          (Demo.client (Ok (Demo.req "GET") :: next)) tt
          1 (Demo.afterFirst next) tt.
Proof.
  eapply (top_round (request := Demo.req "GET") (rest := next)
                    (reply := mkReply ("+v" +:+ LF))).
  - apply top_start.
  - reflexivity.
  - reflexivity.
  - reflexivity.
  - reflexivity.
Defined.

(** C1, read as "a dispatch error is answered with an error reply and the
    session goes on", fails on this run: [FAIL] is a registered command
    whose dispatch returns an error; the session ends with that error, the
    connection is closed, no reply is written and the request that follows
    is never read. *)
Lemma dispatch_error_closes_connection :
  let s := ServeClient Demo.Apply Demo.srv Demo.never
                       (Demo.client [Ok (Demo.req "FAIL"); Ok (Demo.req "GET")]) tt in
  is_Some (methods Demo.srv !! "FAIL") /\
  Demo.Apply Demo.srv (setHost Demo.peer (Demo.req "FAIL")) tt = (Err "boom", tt) /\
  exec s = Returned (Some "boom") /\
  closed (conn_of s) = true /\
  inbound (conn_of s) = [Ok (Demo.req "GET")] /\
  journal (conn_of s) =
    [EvParse (Ok (Demo.req "FAIL")); EvErrLine ("-boom" +:+ LF); EvClose].
Proof.
  cbv zeta. split; [| repeat split; reflexivity].
  vm_compute. eexists. reflexivity.
Qed.

Lemma dispatch_error_ends_session_witness :
  exists sent,
    exec (ServeClient Demo.Apply Demo.srv Demo.never
            (Demo.client [Ok (Demo.req "GET"); Ok (Demo.req "FAIL"); Ok (Demo.req "GET")]) tt)
      = Returned (Some "boom") /\
    app_of (ServeClient Demo.Apply Demo.srv Demo.never
            (Demo.client [Ok (Demo.req "GET"); Ok (Demo.req "FAIL"); Ok (Demo.req "GET")]) tt)
      = tt /\
    journal (conn_of (ServeClient Demo.Apply Demo.srv Demo.never
            (Demo.client [Ok (Demo.req "GET"); Ok (Demo.req "FAIL"); Ok (Demo.req "GET")]) tt))
      = Demo.firstRound ++ [EvParse (Ok (Demo.req "FAIL")); EvErrLine sent; EvClose] /\
    inbound (conn_of (ServeClient Demo.Apply Demo.srv Demo.never
            (Demo.client [Ok (Demo.req "GET"); Ok (Demo.req "FAIL"); Ok (Demo.req "GET")]) tt))
      = [Ok (Demo.req "GET")] /\
    closed (conn_of (ServeClient Demo.Apply Demo.srv Demo.never
            (Demo.client [Ok (Demo.req "GET"); Ok (Demo.req "FAIL"); Ok (Demo.req "GET")]) tt))
      = true /\
    (closed (Demo.afterFirst [Ok (Demo.req "FAIL"); Ok (Demo.req "GET")]) = false ->
     budget (Demo.afterFirst [Ok (Demo.req "FAIL"); Ok (Demo.req "GET")]) = None ->
     sent = "-" +:+ "boom" +:+ LF).
Proof.
  apply (dispatch_error_ends_session
           (Apply := Demo.Apply) (srv := Demo.srv) (exitAt := Demo.never)
           (addr := Demo.peer) (i := 1%nat)
           (conn := Demo.afterFirst [Ok (Demo.req "FAIL"); Ok (Demo.req "GET")])
           (app := tt) (request := Demo.req "FAIL") (rest := [Ok (Demo.req "GET")])).
  - reflexivity.
  - apply afterFirst_loopTop.
  - reflexivity.
  - reflexivity.
  - reflexivity.
Defined.

(** C4, read as "a failed read ends the session without anything being
    written", fails on this run: the first read fails with [EOF]; the
    session ends, and what it wrote to the connection before closing it is
    the error line. *)
Lemma read_failure_writes_error_line :
  let s := ServeClient Demo.Apply Demo.srv Demo.never (Demo.client [Err "EOF"]) tt in
  exec s = Returned (Some "EOF") /\
  journal (conn_of s) = [EvParse (Err "EOF"); EvErrLine ("-EOF" +:+ LF); EvClose] /\
  written (conn_of s) = "-EOF" +:+ LF /\
  written (conn_of s) <> "".
Proof.
  cbv zeta. repeat split; try reflexivity. vm_compute. discriminate.
Qed.

Lemma read_failure_ends_session_witness :
  exists sent,
    exec (ServeClient Demo.Apply Demo.srv Demo.never
            (Demo.client [Ok (Demo.req "GET"); Err "connection reset by peer"]) tt)
      = Returned (Some "connection reset by peer") /\
    app_of (ServeClient Demo.Apply Demo.srv Demo.never
            (Demo.client [Ok (Demo.req "GET"); Err "connection reset by peer"]) tt)
      = tt /\
    journal (conn_of (ServeClient Demo.Apply Demo.srv Demo.never
            (Demo.client [Ok (Demo.req "GET"); Err "connection reset by peer"]) tt))
      = Demo.firstRound ++
        [EvParse (Err "connection reset by peer"); EvErrLine sent; EvClose] /\
    closed (conn_of (ServeClient Demo.Apply Demo.srv Demo.never
            (Demo.client [Ok (Demo.req "GET"); Err "connection reset by peer"]) tt))
      = true /\
    (closed (Demo.afterFirst [Err "connection reset by peer"]) = false ->
     budget (Demo.afterFirst [Err "connection reset by peer"]) = None ->
     sent = "-" +:+ "connection reset by peer" +:+ LF).
Proof.
  apply (read_failure_ends_session
           (Apply := Demo.Apply) (srv := Demo.srv) (exitAt := Demo.never)
           (addr := Demo.peer) (i := 1%nat)
           (conn := Demo.afterFirst [Err "connection reset by peer"])
           (app := tt) (rest := [])).
  - reflexivity.
  - apply afterFirst_loopTop.
  - reflexivity.
  - reflexivity.
Defined.

Lemma filter_is_inert_witness :
  Forall (fun m => IsExported Demo.upper (Name m) = true)
         (methodSet (handlerOf (Demo.config (Some Demo.kv)))) /\
  Forall (fun m => skipped (Name m) = Done false)
         (methodSet (handlerOf (Demo.config (Some Demo.kv)))) /\
  NewServer Demo.create Demo.Register (Demo.config (Some Demo.kv)) =
  match registerEveryOperation Demo.create Demo.Register
          (handlerOf (Demo.config (Some Demo.kv)))
          (methodSet (handlerOf (Demo.config (Some Demo.kv))))
          (blank Demo.Fn (Demo.config (Some Demo.kv))) with
  | Done (Ok srv) => Done (Ok (withExitChan ChOpen srv))
  | Done (Err e) => Done (Err e)
  | Panic msg => Panic msg
  end.
Proof.
  assert (H : Forall (fun m => IsExported Demo.upper (Name m) = true)
                     (methodSet (handlerOf (Demo.config (Some Demo.kv))))).
  { simpl. repeat constructor. }
  split; [exact H |].
  exact (filter_is_inert Demo.create Demo.Register Demo.upper
                         (Demo.config (Some Demo.kv)) H).
Defined.

Lemma NewServer_fails_fast_witness :
  exists pre m0 post srv1 e,
    methodSet (handlerOf (Demo.config (Some Demo.bad))) = pre ++ m0 :: post /\
    registerMethods Demo.create Demo.Register (handlerOf (Demo.config (Some Demo.bad)))
                    pre (blank Demo.Fn (Demo.config (Some Demo.bad))) = Done (Ok srv1) /\
    skipped (Name m0) = Done false /\
    Demo.create srv1 (handlerOf (Demo.config (Some Demo.bad))) (Func m0) = Err e /\
    NewServer Demo.create Demo.Register (Demo.config (Some Demo.bad)) = Done (Err e) /\
    (forall srv, NewServer Demo.create Demo.Register (Demo.config (Some Demo.bad))
                 <> Done (Ok srv)).
Proof.
  apply (NewServer_fails_fast Demo.create Demo.Register
                              (Demo.config (Some Demo.bad)) Demo.ODD).
  - simpl. repeat constructor; discriminate.
  - simpl. auto.
  - reflexivity.
  - intros srv. eexists. reflexivity.
Defined.

Lemma NewServer_default_handler_witness :
  handlerOf (Demo.config None) = NewDefaultHandler /\
  NewServer Demo.create Demo.Register (Demo.config None) =
    Done (Ok (withExitChan ChOpen (blank Demo.Fn (Demo.config None)))) /\
  methods (withExitChan ChOpen (blank Demo.Fn (Demo.config None))) = ∅.
Proof.
  apply (NewServer_default_handler Demo.create Demo.Register (Demo.config None)).
  reflexivity.
Defined.

Lemma Shutdown_once_witness :
  recvReady (exitChan Demo.srv) = false /\
  exists srv',
    Shutdown Demo.srv = Done srv' /\
    recvReady (exitChan srv') = true /\
    (forall exitAt l,
        exitAt 0%nat = exitChan srv' ->
        astate (Serve srv' exitAt l) = Returned None) /\
    (forall exitAt conn (app : unit) addr,
        clientAddr conn = Ok addr ->
        exitAt 0%nat = exitChan srv' ->
        exec (ServeClient Demo.Apply srv' exitAt conn app) = Returned None) /\
    Shutdown srv' = Panic "close of closed channel" /\
    (forall srv'', Shutdown srv' <> Done srv'').
Proof.
  apply (Shutdown_once Demo.create Demo.Register Demo.Apply
                       (Demo.config (Some Demo.kv)) (srv := Demo.srv)).
  reflexivity.
Defined.

Lemma every_exit_closes_witness :
  (astate (Serve Demo.srv Demo.stopped Demo.idle) = Returned None /\
   lclosed (listener_of (Serve Demo.srv Demo.stopped Demo.idle)) = true) /\
  (exec (ServeClient Demo.Apply Demo.srv Demo.never (Demo.client [Err "EOF"]) tt)
     = Returned (Some "EOF") /\
   closed (conn_of (ServeClient Demo.Apply Demo.srv Demo.never
                                (Demo.client [Err "EOF"]) tt)) = true).
Proof.
  destruct (every_exit_closes Demo.Apply Demo.srv Demo.stopped Demo.idle
                              (Demo.client [Err "EOF"]) tt None (Some "EOF"))
    as [Hl _].
  destruct (every_exit_closes Demo.Apply Demo.srv Demo.never Demo.idle
                              (Demo.client [Err "EOF"]) tt None (Some "EOF"))
    as [_ Hc].
  split; split; [reflexivity | apply Hl; reflexivity
                 | reflexivity | apply Hc; reflexivity].
Defined.

Lemma ListenAndServe_bind_address_witness :
  snd (ListenAndServe Demo.listen Demo.unixSrv Demo.never)
    = Ok (Serve Demo.unixSrv Demo.never Demo.idle) /\
  network (listener_of (Serve Demo.unixSrv Demo.never Demo.idle)) = "unix" /\
  laddr (listener_of (Serve Demo.unixSrv Demo.never Demo.idle)) = "/tmp/redis.sock".
Proof.
  assert (H : snd (ListenAndServe Demo.listen Demo.unixSrv Demo.never)
              = Ok (Serve Demo.unixSrv Demo.never Demo.idle)) by reflexivity.
  split; [exact H |].
  destruct (ListenAndServe_bind_address Demo.listen Demo.unixSrv Demo.never H)
    as [Hunix _].
  apply Hunix; reflexivity.
Defined.

Lemma no_pipelining_witness :
  exists evs,
    journal (conn_of (ServeClient Demo.Apply Demo.srv Demo.never
               (Demo.client [Ok (Demo.req "GET"); Ok (Demo.req "NOPE"); Err "EOF"]) tt))
      = journal (Demo.client [Ok (Demo.req "GET"); Ok (Demo.req "NOPE"); Err "EOF"])
        ++ evs /\
    readsWhenSettled Demo.peer evs /\
    oneBehind Demo.peer evs.
Proof.
  apply (no_pipelining Demo.Apply Demo.srv Demo.never
           (Demo.client [Ok (Demo.req "GET"); Ok (Demo.req "NOPE"); Err "EOF"]) tt
           (addr := Demo.peer)).
  reflexivity.
Defined.

(** * Further properties *)

(** ** More on construction *)


Section MoreConstruction.

Context {Value HandlerFn : Type}.
Variable createHandlerFn :
  Server HandlerFn -> Handler Value -> Value -> result HandlerFn.
Variable Register : string -> HandlerFn -> Server HandlerFn -> Server HandlerFn.

Local Abbreviation registerMethods := (registerMethods createHandlerFn Register).
Local Abbreviation registerEveryOperation :=
  (registerEveryOperation createHandlerFn Register).
Local Abbreviation NewServer := (NewServer createHandlerFn Register).

(** The loop of [NewServer] is: drop the methods the filter passes over,
    whether they could be adapted or not, and register all the others in
    order. *)
Theorem registerMethods_filter (h : Handler Value) (ms : list (Method Value))
        (srv : Server HandlerFn) :
  Forall (fun m => Name m <> "") ms ->
  registerMethods h ms srv = registerEveryOperation h (List.filter eligible ms) srv.
Proof.
  intros Hne. revert srv.
  induction Hne as [|m ms Hm _ IH]; intros srv; simpl; [reflexivity |].
  unfold eligible at 1.
  destruct (skipped (Name m)) as [[|]|msg] eqn:Hsk.
  - apply IH.
  - simpl. destruct (createHandlerFn srv h (Func m)); [apply IH | reflexivity].
  - destruct (Name m); [congruence | discriminate].
Qed.

Lemma registerMethods_all_adapt (h : Handler Value) (ms : list (Method Value)) :
  Forall (fun m => Name m <> "") ms ->
  Forall (fun m => eligible m = true ->
                   forall srv, exists fn, createHandlerFn srv h (Func m) = Ok fn) ms ->
  forall srv, exists srv', registerMethods h ms srv = Done (Ok srv').
Proof.
  intros Hne Had. induction ms as [|m ms IH]; intros srv; simpl.
  - now exists srv.
  - apply Forall_cons_iff in Hne as [Hm Hne].
    apply Forall_cons_iff in Had as [Hmad Had].
    unfold eligible in Hmad.
    destruct (skipped (Name m)) as [[|]|msg] eqn:Hsk.
    + now apply IH.
    + destruct (Hmad eq_refl srv) as [fn ->]. now apply IH.
    + destruct (Name m); [congruence | discriminate].
Qed.

(** When every operation the filter keeps can be adapted, [NewServer]
    returns a server, and that server's exit channel is open. *)
Theorem NewServer_succeeds (c : Config Value) :
  Forall (fun m => Name m <> "") (methodSet (handlerOf c)) ->
  Forall (fun m => eligible m = true ->
                   forall srv, exists fn,
                       createHandlerFn srv (handlerOf c) (Func m) = Ok fn)
         (methodSet (handlerOf c)) ->
  exists srv, NewServer c = Done (Ok srv) /\ exitChan srv = ChOpen.
Proof.
  intros Hne Had.
  destruct (registerMethods_all_adapt Hne Had (blank HandlerFn c)) as [srv' Hreg].
  exists (withExitChan ChOpen srv'). split; [| reflexivity].
  rewrite NewServer_unfold. now rewrite Hreg.
Qed.

(** For the ["unix"] transport the port of the configuration plays no part
    in what [NewServer] builds. *)
Theorem NewServer_unix_ignores_port (c : Config Value) (p : Z) :
  proto c = "unix" ->
  NewServer (mkConfig (proto c) (host c) p (handler c)) = NewServer c.
Proof.
  intros Hux. rewrite !NewServer_unfold. unfold handlerOf, blank. simpl.
  now rewrite Hux.
Qed.

(** A [Register] that leaves the transport and the address alone: the loop
    of [NewServer] leaves them alone too. *)
Lemma registerMethods_keeps_address (h : Handler Value) (ms : list (Method Value)) :
  (forall name fn s, Proto (Register name fn s) = Proto s /\
                     Addr (Register name fn s) = Addr s) ->
  forall srv srv',
    registerMethods h ms srv = Done (Ok srv') ->
    Proto srv' = Proto srv /\ Addr srv' = Addr srv.
Proof.
  intros Hreg. induction ms as [|m ms IH]; intros srv srv'; simpl.
  - intros [= <-]. auto.
  - destruct (skipped (Name m)) as [[|]|msg]; [apply IH | | discriminate].
    destruct (createHandlerFn srv h (Func m)) as [fn | e]; [| discriminate].
    intros Hrest. apply IH in Hrest as [-> ->]. apply Hreg.
Qed.

End MoreConstruction.

(** ** More on the acceptor *)

Section MoreAcceptor.

Context {HandlerFn : Type}.

(** The server with its transport filled in, as [ListenAndServe] does first. *)
Local Abbreviation normalized srv :=
  (if String.eqb (Proto srv) "" then withProto "tcp" srv else srv).

(** What [ListenAndServe] asks [net.Listen] for. *)
Lemma ListenAndServe_unfold
      (netListen : string -> string -> result (list (result Conn)))
      (srv : Server HandlerFn) (exitAt : nat -> Chan) :
  let p := if String.eqb (Proto srv) "" then "tcp" else Proto srv in
  let addr := if String.eqb (Addr srv) ""
              then (if String.eqb p "unix" then "/tmp/redis.sock" else ":6389")
              else Addr srv in
  ListenAndServe netListen srv exitAt =
  match netListen p addr with
  | Err e => (normalized srv, Err e)
  | Ok arrivals =>
    (withMonitorChans [] (normalized srv),
     Ok (Serve (normalized srv) exitAt (mkListener p addr arrivals false)))
  end.
Proof.
  unfold ListenAndServe. cbv zeta.
  assert (Hp : Proto (normalized srv) =
               if String.eqb (Proto srv) "" then "tcp" else Proto srv).
  { destruct (String.eqb (Proto srv) ""); reflexivity. }
  rewrite Hp.
  assert (Ha : (if (String.eqb (if String.eqb (Proto srv) "" then "tcp" else Proto srv)
                               "unix" && String.eqb (Addr srv) "")%bool
                then "/tmp/redis.sock"
                else if String.eqb (Addr srv) "" then ":6389" else Addr srv) =
               (if String.eqb (Addr srv) ""
                then (if String.eqb (if String.eqb (Proto srv) "" then "tcp" else Proto srv)
                                    "unix"
                      then "/tmp/redis.sock" else ":6389")
                else Addr srv)).
  { destruct (String.eqb (Addr srv) ""); [now rewrite andb_true_r |].
    now rewrite andb_false_r. }
  rewrite Ha.
  destruct (netListen _ _) as [arrivals | e]; [| reflexivity].
  f_equal.
  now destruct (Serve_frame (normalized srv) exitAt
                            (mkListener
                               (if String.eqb (Proto srv) "" then "tcp" else Proto srv)
                               (if String.eqb (Addr srv) ""
                                then (if String.eqb
                                           (if String.eqb (Proto srv) "" then "tcp"
                                            else Proto srv) "unix"
                                      then "/tmp/redis.sock" else ":6389")
                                else Addr srv) arrivals false))
    as (-> & _).
Qed.

(** [ListenAndServe] changes two things of the server and nothing else: an
    empty transport becomes ["tcp"], and the monitor subscribers are
    dropped, but only once the bind has succeeded.  The Command Table and
    the exit channel are untouched, and the default address it may have
    bound is not stored: [Addr] stays as it was. *)
Theorem ListenAndServe_server
        (netListen : string -> string -> result (list (result Conn)))
        (srv : Server HandlerFn) (exitAt : nat -> Chan) :
  let srv' := fst (ListenAndServe netListen srv exitAt) in
  Proto srv' = (if String.eqb (Proto srv) "" then "tcp" else Proto srv) /\
  Addr srv' = Addr srv /\
  methods srv' = methods srv /\
  exitChan srv' = exitChan srv /\
  MonitorChans srv' =
    match snd (ListenAndServe netListen srv exitAt) with
    | Ok _ => []
    | Err _ => MonitorChans srv
    end.
Proof.
  cbv zeta. rewrite ListenAndServe_unfold. cbv zeta.
  destruct (netListen _ _) as [arrivals | e]; simpl;
    destruct (String.eqb (Proto srv) ""); simpl; auto.
Qed.

(** The accept loop accounts for the whole backlog: the connections of the
    sessions started so far, then the accept error if the loop returned
    one, then what the listener still holds, are the arrivals in order. *)
Lemma acceptLoop_accounts (srv : Server HandlerFn) (exitAt : nat -> Chan)
      (pending : list (result Conn)) :
  forall (i : nat) (l : Listener) (started : list (Server HandlerFn * Conn)),
    backlog l = pending ->
    let a := acceptLoop srv exitAt i pending l started in
    map Ok (map snd started) ++ pending =
    map Ok (map snd (spawned a)) ++
    match astate a with
    | Returned (Some e) => Err e :: backlog (listener_of a)
    | _ => backlog (listener_of a)
    end.
Proof.
  induction pending as [|[rw | err] rest IH]; intros i l started Hl; simpl;
    destruct (recvReady (exitAt i)); simpl; try (now rewrite Hl);
    try reflexivity.
  rewrite <- (IH (S i) (accepted rest l) (started ++ [(srv, rw)]) eq_refl).
  rewrite !map_app, <- app_assoc. reflexivity.
Qed.

(** [Serve] starts a session for every connection it accepts, in the order
    of arrival, and accepts nothing after an accept error or after it saw
    the exit channel closed: the connections of the sessions, the accept
    error if there was one, and what is left on the listener make up the
    arrivals. *)
Theorem Serve_accounts_for_arrivals (srv : Server HandlerFn) (exitAt : nat -> Chan)
        (l : Listener) :
  backlog l =
  map Ok (map snd (spawned (Serve srv exitAt l))) ++
  match astate (Serve srv exitAt l) with
  | Returned (Some e) => Err e :: backlog (listener_of (Serve srv exitAt l))
  | _ => backlog (listener_of (Serve srv exitAt l))
  end.
Proof.
  pose proof (acceptLoop_accounts (withMonitorChans [] srv) exitAt 0 l [] eq_refl)
    as Hacc. simpl in Hacc. unfold Serve.
  destruct (astate (acceptLoop _ _ _ _ _ _)) as [[e |] |] eqn:Hst; simpl;
    rewrite ?Hst; exact Hacc.
Qed.

Lemma acceptLoop_keeps_accepting (srv : Server HandlerFn) (exitAt : nat -> Chan)
      (pending : list (result Conn)) :
  forall (i : nat) (l : Listener) (started : list (Server HandlerFn * Conn)),
    (forall k, (k <= length pending)%nat -> recvReady (exitAt (i + k)%nat) = false) ->
    forallb isOk pending = true ->
    let a := acceptLoop srv exitAt i pending l started in
    astate a = Blocked /\
    lclosed (listener_of a) = lclosed l /\
    length (spawned a) = (length started + length pending)%nat.
Proof.
  induction pending as [|[rw | err] rest IH]; intros i l started Hex Hok; simpl.
  - pose proof (Hex 0%nat ltac:(simpl; lia)) as H0. rewrite Nat.add_0_r in H0.
    rewrite H0. simpl. repeat split. lia.
  - pose proof (Hex 0%nat ltac:(simpl; lia)) as H0. rewrite Nat.add_0_r in H0.
    rewrite H0.
    destruct (IH (S i) (accepted rest l) (started ++ [(srv, rw)])) as (Hb & Hc & Hn).
    + intros k Hk. replace (S i + k)%nat with (i + S k)%nat by lia.
      apply Hex. simpl. lia.
    + exact Hok.
    + repeat split; [exact Hb | exact Hc |].
      rewrite Hn, length_app. simpl. lia.
  - discriminate.
Qed.

(** [Serve] does not return on its own: as long as no accept fails and the
    exit channel is not found closed, it accepts every arrival, starts a
    session for each, and then waits, the listener not closed by it. *)
Theorem Serve_keeps_accepting (srv : Server HandlerFn) (exitAt : nat -> Chan)
        (l : Listener) :
  (forall k, (k <= length (backlog l))%nat -> recvReady (exitAt k) = false) ->
  forallb isOk (backlog l) = true ->
  astate (Serve srv exitAt l) = Blocked /\
  lclosed (listener_of (Serve srv exitAt l)) = lclosed l /\
  length (spawned (Serve srv exitAt l)) = length (backlog l).
Proof.
  intros Hex Hok.
  destruct (acceptLoop_keeps_accepting (withMonitorChans [] srv) exitAt
              (backlog l) 0 l [] Hex Hok) as (Hb & Hc & Hn).
  unfold Serve. rewrite Hb. auto.
Qed.

(** A loop that returned [nil] saw the exit channel closed, at the
    iteration that follows its last accept. *)
Lemma acceptLoop_nil_return (srv : Server HandlerFn) (exitAt : nat -> Chan)
      (pending : list (result Conn)) :
  forall (i : nat) (l : Listener) (started : list (Server HandlerFn * Conn)),
    astate (acceptLoop srv exitAt i pending l started) = Returned None ->
    exists k, recvReady (exitAt (i + k)%nat) = true /\
              length (spawned (acceptLoop srv exitAt i pending l started))
              = (length started + k)%nat.
Proof.
  induction pending as [|[rw | err] rest IH]; intros i l started; simpl;
    destruct (recvReady (exitAt i)) eqn:Hex; simpl; try discriminate;
    try (intros _; exists 0%nat; split; [now rewrite Nat.add_0_r | lia]).
  intros Hret. destruct (IH _ _ _ Hret) as (k & Hk & Hn).
  exists (S k). replace (i + S k)%nat with (S i + k)%nat by lia.
  split; [exact Hk |]. rewrite Hn, length_app. simpl. lia.
Qed.

End MoreAcceptor.

(** ** More on sessions *)

Lemma append_empty_r (s : string) : s +:+ "" = s.
Proof.
  induction s as [|c s IH]; [reflexivity |].
  change (String c (s +:+ "") = String c s). now rewrite IH.
Qed.

Lemma append_assoc (s1 s2 s3 : string) : (s1 +:+ s2) +:+ s3 = s1 +:+ s2 +:+ s3.
Proof.
  induction s1 as [|c s1 IH]; [reflexivity |].
  change (String c ((s1 +:+ s2) +:+ s3) = String c (s1 +:+ s2 +:+ s3)).
  now rewrite IH.
Qed.

Lemma sentAll_app (l1 l2 : list Event) :
  sentAll (l1 ++ l2) = sentAll l1 +:+ sentAll l2.
Proof.
  induction l1 as [|ev l1 IH]; simpl; [reflexivity |].
  fold (sentAll (l1 ++ l2)). fold (sentAll l1). now rewrite IH, append_assoc.
Qed.

Lemma reads_app (l1 l2 : list Event) : reads (l1 ++ l2) = reads l1 ++ reads l2.
Proof.
  induction l1 as [|[r | | |] l1 IH]; simpl; rewrite ?IH; reflexivity.
Qed.

Lemma repliesOf_app (l1 l2 : list Event) :
  repliesOf (l1 ++ l2) = repliesOf l1 ++ repliesOf l2.
Proof.
  induction l1 as [|[| request reply sent e | |] l1 IH]; simpl; rewrite ?IH;
    reflexivity.
Qed.

Section MoreSessions.

Context {HandlerFn App : Type}.
Variable Apply : Server HandlerFn -> Request -> App -> result ReplyWriter * App.
Variable srv : Server HandlerFn.
Variable exitAt : nat -> Chan.

Local Abbreviation serveLoop := (serveLoop Apply srv exitAt).
Local Abbreviation ServeClient := (ServeClient Apply srv exitAt).
Local Abbreviation loopTop := (loopTop Apply srv exitAt).
Local Abbreviation replay := (replay Apply srv).

(** What the loop of a session does to its connection and to the
    application, all in one: it adds reads and reply writes only; it takes
    the inbound requests in order; it dispatches each request read, once,
    on the state the one before left; and unless it returns an error
    everything it read is answered in full. *)
Lemma serveLoop_account (addr : string) (pending : list (result Request)) :
  forall (i : nat) (conn : Conn) (app : App),
    inbound conn = pending ->
    exists evs,
      journal (conn_of (serveLoop addr i pending conn app)) = journal conn ++ evs /\
      forallb isTraffic evs = true /\
      reads evs ++ inbound (conn_of (serveLoop addr i pending conn app)) = pending /\
      replay (map (setHost addr) (parsed evs)) app =
        (repliesOf evs, app_of (serveLoop addr i pending conn app)) /\
      kind (conn_of (serveLoop addr i pending conn app)) = kind conn /\
      ((forall e, exec (serveLoop addr i pending conn app) <> Returned (Some e)) ->
       settled addr evs) /\
      (exec (serveLoop addr i pending conn app) = Blocked ->
       inbound (conn_of (serveLoop addr i pending conn app)) = []).
Proof.
  induction pending as [|[request | err] rest IH]; intros i conn app Hin; simpl;
    destruct (recvReady (exitAt i)) eqn:Hex; simpl;
    try (exists []; rewrite app_nil_r; repeat split; auto; discriminate).
  - (* a request is read *)
    destruct (Apply srv (setHost addr request) app) as [[reply | err] app'] eqn:Hap.
    + destruct (WriteTo_journal (setHost addr request) reply
                                (logParse (Ok request) rest conn))
        as (sent & Hw & Hwi & Hwk & Hwhole).
      destruct (WriteTo (setHost addr request) reply
                        (logParse (Ok request) rest conn)) as [[e |] conn'] eqn:HW;
        simpl in Hw, Hwi, Hwk, Hwhole.
      * exists [EvParse (Ok request); EvReply (setHost addr request) reply sent (Some e)].
        simpl. rewrite Hw, Hwi, Hap. simpl. rewrite <- app_assoc.
        repeat split; auto; try discriminate;
          try (intros Hno; now destruct (Hno e)).
      * specialize (Hwhole eq_refl). subst sent.
        destruct (IH (S i) conn' app' Hwi)
          as (evs & Hj & Htr & Hrd & Hrp & Hk & Hset & Hbl).
        exists (EvParse (Ok request)
                  :: EvReply (setHost addr request) reply (wire reply) None :: evs).
        rewrite Hj, Hw. simpl. rewrite Hap, Hrp, Hrd, Hk, Hwk, Htr.
        rewrite <- !app_assoc. simpl. repeat split; auto.
        intros Hno. unfold settled. simpl.
        rewrite String.eqb_refl. f_equal. now apply Hset.
    + exists [EvParse (Ok request)]. simpl. rewrite Hap.
      repeat split; auto; try discriminate;
        try (intros Hno; now destruct (Hno err)).
  - (* the read failed *)
    exists [EvParse (Err err)]. simpl.
    repeat split; auto; try discriminate;
      try (intros Hno; now destruct (Hno err)).
Qed.

Lemma ServeClient_file_error (conn : Conn) (app : App) (e : error) :
  kind conn = UnixConn (Err e) ->
  ServeClient conn app =
  mkSession (Returned (Some e)) (deferred (Some e) conn) app.
Proof. unfold ServeClient. now intros ->. Qed.

(** The same for the whole of [ServeClient], whose deferred function adds
    its last words.  [addr] is the client address when there is one. *)
Lemma ServeClient_account (conn : Conn) (app : App) (addr : string) :
  (forall a, clientAddr conn = Ok a -> a = addr) ->
  exists evs sent,
    journal (conn_of (ServeClient conn app)) =
      journal conn ++ evs ++ lastWords (exec (ServeClient conn app)) sent /\
    forallb isTraffic evs = true /\
    reads evs ++ inbound (conn_of (ServeClient conn app)) = inbound conn /\
    replay (map (setHost addr) (parsed evs)) app =
      (repliesOf evs, app_of (ServeClient conn app)) /\
    ((forall e, exec (ServeClient conn app) <> Returned (Some e)) ->
     settled addr evs) /\
    (exec (ServeClient conn app) = Blocked ->
     inbound (conn_of (ServeClient conn app)) = []).
Proof.
  intros Haddr. destruct (clientAddr conn) as [a | e] eqn:Hca.
  - specialize (Haddr a eq_refl). subst a.
    rewrite ServeClient_unfold with (addr := addr) by assumption. cbv zeta.
    destruct (serveLoop_account addr 0 conn app eq_refl)
      as (evs & Hj & Htr & Hrd & Hrp & _ & Hset & Hbl).
    destruct (exec (serveLoop addr 0 (inbound conn) conn app)) as [[e |] |] eqn:Hx;
      cbn [exec conn_of app_of].
    + destruct (deferred_error e (conn_of (serveLoop addr 0 (inbound conn) conn app)))
        as (sent & Hd & Hdi & _).
      exists evs, sent. rewrite Hd, Hdi, Hj, <- app_assoc. simpl.
      split; [reflexivity |]. split; [exact Htr |]. split; [exact Hrd |].
      split; [exact Hrp |]. split; [| discriminate].
      intros Hno. now destruct (Hno e).
    + exists evs, "". unfold deferred, Close. simpl. rewrite Hj, <- app_assoc.
      split; [reflexivity |]. split; [exact Htr |]. split; [exact Hrd |].
      split; [exact Hrp |]. split; [| discriminate].
      intros _. apply Hset. discriminate.
    + exists evs, "". rewrite Hx. simpl. rewrite app_nil_r.
      split; [exact Hj |]. split; [exact Htr |]. split; [exact Hrd |].
      split; [exact Hrp |]. split; [| exact Hbl].
      intros _. apply Hset. discriminate.
  - (* [File()] failed: nothing is read *)
    assert (Hk : kind conn = UnixConn (Err e)).
    { unfold clientAddr in Hca. destruct (kind conn); congruence. }
    rewrite (ServeClient_file_error conn app Hk). cbn [exec conn_of app_of].
    destruct (deferred_error e conn) as (sent & Hd & Hdi & _).
    exists [], sent. rewrite Hd, Hdi. simpl.
    split; [reflexivity |]. split; [reflexivity |]. split; [reflexivity |].
    split; [reflexivity |]. split; [| discriminate].
    intros Hno. now destruct (Hno e).
Qed.

(** The client address of a connection when it has one. *)
Local Abbreviation addrOf conn :=
  (match clientAddr conn with Ok a => a | Err _ => "" end).

Lemma addrOf_spec (conn : Conn) :
  forall a, clientAddr conn = Ok a -> a = addrOf conn.
Proof. intros a ->. reflexivity. Qed.

(** The journal of a session has one shape: reads and reply writes, then,
    if the session returned, the last words of the deferred function: the
    error line when it returned an error, and the close.  So the connection
    is closed once, as the last thing done to it, and at most one error
    line is written, right before. *)
Theorem session_journal_shape (conn : Conn) (app : App) :
  exists evs sent,
    journal (conn_of (ServeClient conn app)) =
      journal conn ++ evs ++ lastWords (exec (ServeClient conn app)) sent /\
    forallb isTraffic evs = true.
Proof.
  destruct (ServeClient_account conn app (addrOf_spec conn))
    as (evs & sent & Hj & Htr & _).
  now exists evs, sent.
Qed.

(** A session dispatches every request it reads exactly once, with [Host]
    set to the client address, in reading order and each on the
    application state the one before left; the replies it hands to
    [WriteTo] are the ones [Apply] returned, in that order, and the state
    it leaves is the one the last dispatch left. *)
Theorem session_dispatches_in_order (conn : Conn) (app : App) (addr : string) :
  clientAddr conn = Ok addr ->
  exists evs sent,
    journal (conn_of (ServeClient conn app)) =
      journal conn ++ evs ++ lastWords (exec (ServeClient conn app)) sent /\
    replay (map (setHost addr) (parsed evs)) app =
      (repliesOf evs, app_of (ServeClient conn app)).
Proof.
  intros Haddr.
  destruct (ServeClient_account conn app (addr := addr)) as
      (evs & sent & Hj & _ & _ & Hrp & _).
  { intros a Ha. congruence. }
  now exists evs, sent.
Qed.

Lemma traffic_not_close (evs : list Event) :
  forallb isTraffic evs = true -> existsb isClose evs = false.
Proof.
  induction evs as [|[| | |] evs IH]; simpl; try discriminate; auto.
Qed.

(** A session that has not returned an error owes nothing: whether it
    waits for the next request or returned on shutdown, every request it
    read has been answered in full.  While it waits it has read all that
    came in and has not closed the connection. *)
Theorem session_settled_unless_error (conn : Conn) (app : App) (addr : string) :
  clientAddr conn = Ok addr ->
  (forall e, exec (ServeClient conn app) <> Returned (Some e)) ->
  exists evs sent,
    journal (conn_of (ServeClient conn app)) =
      journal conn ++ evs ++ lastWords (exec (ServeClient conn app)) sent /\
    settled addr evs /\
    (exec (ServeClient conn app) = Blocked ->
     inbound (conn_of (ServeClient conn app)) = [] /\
     closed (conn_of (ServeClient conn app)) = closed conn).
Proof.
  intros Haddr Hno.
  destruct (ServeClient_account conn app (addr := addr)) as
      (evs & sent & Hj & Htr & _ & _ & Hset & Hbl).
  { intros a Ha. congruence. }
  exists evs, sent. split; [exact Hj |]. split; [now apply Hset |].
  intros Hx. split; [now apply Hbl |].
  unfold closed. rewrite Hj, Hx. simpl. rewrite app_nil_r, existsb_app.
  rewrite (traffic_not_close _ Htr). apply orb_false_r.
Qed.

(** File descriptor trouble on a unix connection: when [File()] fails the
    session returns that error before its loop; nothing is read or
    dispatched, and the deferred function writes the error line and closes
    the connection. *)
Theorem file_error_ends_session (conn : Conn) (app : App) (e : error) :
  kind conn = UnixConn (Err e) ->
  exists sent,
    exec (ServeClient conn app) = Returned (Some e) /\
    app_of (ServeClient conn app) = app /\
    inbound (conn_of (ServeClient conn app)) = inbound conn /\
    journal (conn_of (ServeClient conn app)) =
      journal conn ++ [EvErrLine sent; EvClose] /\
    (closed conn = false -> budget conn = None -> sent = "-" +:+ e +:+ LF).
Proof.
  intros Hk. rewrite (ServeClient_file_error conn app Hk).
  destruct (deferred_error e conn) as (sent & Hd & Hdi & Hs).
  exists sent. cbn [exec conn_of app_of]. auto.
Qed.

(** Shutdown ends a session quietly.  When, at any loop top, the exit
    channel is found closed, [ServeClient] returns [nil]: the requests
    still inbound are not read, nothing is written, and the only thing
    done to the connection is the close. *)
Theorem shutdown_ends_session_quietly
        (addr : string) (conn0 : Conn) (app0 : App) (i : nat) (conn : Conn)
        (app : App) :
  clientAddr conn0 = Ok addr ->
  loopTop addr conn0 app0 i conn app ->
  recvReady (exitAt i) = true ->
  exec (ServeClient conn0 app0) = Returned None /\
  app_of (ServeClient conn0 app0) = app /\
  inbound (conn_of (ServeClient conn0 app0)) = inbound conn /\
  journal (conn_of (ServeClient conn0 app0)) = journal conn ++ [EvClose].
Proof.
  intros Haddr Htop Hex.
  rewrite ServeClient_unfold with (addr := addr) by assumption.
  rewrite (loopTop_serveLoop Htop).
  rewrite serveLoop_exit by assumption. cbv zeta. cbn [exec conn_of app_of].
  repeat split.
Qed.

(** A write failure ends the session.  When, at any loop top, the exit
    channel is not closed, a request is read and dispatched to a reply,
    and writing the reply fails, [ServeClient] returns the write error:
    the requests that follow are not read, and the deferred function still
    tries the error line on the failing connection before it closes it. *)
Theorem write_failure_ends_session
        (addr : string) (conn0 : Conn) (app0 : App) (i : nat) (conn : Conn)
        (app : App) (request : Request) (rest : list (result Request))
        (reply : ReplyWriter) (app' : App) (e : error) (conn' : Conn) :
  clientAddr conn0 = Ok addr ->
  loopTop addr conn0 app0 i conn app ->
  recvReady (exitAt i) = false ->
  inbound conn = Ok request :: rest ->
  Apply srv (setHost addr request) app = (Ok reply, app') ->
  WriteTo (setHost addr request) reply (logParse (Ok request) rest conn)
    = (Some e, conn') ->
  exists sent sent',
    exec (ServeClient conn0 app0) = Returned (Some e) /\
    app_of (ServeClient conn0 app0) = app' /\
    inbound (conn_of (ServeClient conn0 app0)) = rest /\
    journal (conn_of (ServeClient conn0 app0)) =
      journal conn ++ [EvParse (Ok request);
                       EvReply (setHost addr request) reply sent (Some e);
                       EvErrLine sent'; EvClose].
Proof.
  intros Haddr Htop Hex Hin Hap Hw.
  rewrite ServeClient_unfold with (addr := addr) by assumption.
  rewrite (loopTop_serveLoop Htop), Hin. simpl. rewrite Hex, Hap, Hw.
  cbn [exec conn_of app_of].
  destruct (WriteTo_journal (setHost addr request) reply
                            (logParse (Ok request) rest conn))
    as (sent & Hwj & Hwi & _ & _).
  rewrite Hw in Hwj, Hwi. simpl in Hwj, Hwi.
  destruct (deferred_error e conn') as (sent' & Hd & Hdi & _).
  exists sent, sent'. rewrite Hd, Hdi, Hwi, Hwj, <- !app_assoc. simpl.
  repeat split.
Qed.

Lemma serveLoop_nil_return (addr : string) (pending : list (result Request)) :
  forall (i : nat) (conn : Conn) (app : App),
    exec (serveLoop addr i pending conn app) = Returned None ->
    exists k, recvReady (exitAt (i + k)%nat) = true.
Proof.
  induction pending as [|[request | err] rest IH]; intros i conn app; simpl;
    destruct (recvReady (exitAt i)) eqn:Hex; simpl; try discriminate;
    try (intros _; exists 0%nat; now rewrite Nat.add_0_r).
  destruct (Apply srv (setHost addr request) app) as [[reply | err] app'];
    [| discriminate].
  destruct (WriteTo _ _ _) as [[e |] conn']; [discriminate |].
  intros Hret. destruct (IH _ _ _ Hret) as (k & Hk).
  exists (S k). now replace (i + S k)%nat with (S i + k)%nat by lia.
Qed.

Lemma ServeClient_nil_return (conn : Conn) (app : App) :
  exec (ServeClient conn app) = Returned None ->
  exists k, recvReady (exitAt k) = true.
Proof.
  destruct (clientAddr conn) as [addr | e] eqn:Hca.
  - rewrite ServeClient_unfold with (addr := addr) by assumption. cbv zeta.
    destruct (exec (serveLoop addr 0 (inbound conn) conn app)) as [err |] eqn:Hx.
    + cbn [exec]. intros [= ->]. exact (serveLoop_nil_return _ _ _ _ _ Hx).
    + rewrite Hx. discriminate.
  - assert (Hk : kind conn = UnixConn (Err e)).
    { unfold clientAddr in Hca. destruct (kind conn); congruence. }
    rewrite (ServeClient_file_error conn app Hk). discriminate.
Qed.

(** A [nil] return means shutdown.  [Serve] and [ServeClient] return [nil]
    only when they found the exit channel closed at a loop top; for [Serve]
    that loop top follows as many accepts as it started sessions.  Every
    other return carries an error. *)
Theorem nil_return_means_shutdown (l : Listener) (conn : Conn) (app : App) :
  (astate (Serve srv exitAt l) = Returned None ->
   exists k, recvReady (exitAt k) = true /\
             length (spawned (Serve srv exitAt l)) = k) /\
  (exec (ServeClient conn app) = Returned None ->
   exists k, recvReady (exitAt k) = true).
Proof.
  split; [| apply ServeClient_nil_return].
  unfold Serve.
  destruct (astate (acceptLoop _ _ _ _ _ _)) as [err |] eqn:Hst.
  - cbn [astate spawned]. intros [= ->].
    destruct (acceptLoop_nil_return _ _ _ _ _ _ Hst) as (k & Hk & Hn).
    exists k. auto.
  - rewrite Hst. discriminate.
Qed.

(** A server put together without [NewServer] has no exit channel: it
    cannot be shut down.  [Shutdown] panics on it, and as long as the
    channel stays nil neither [Serve] nor [ServeClient] ever returns
    [nil]. *)
Theorem nil_exitChan_cannot_shut_down (l : Listener) (conn : Conn) (app : App) :
  exitChan srv = ChNil ->
  (forall i, exitAt i = exitChan srv) ->
  Shutdown srv = Panic "close of nil channel" /\
  astate (Serve srv exitAt l) <> Returned None /\
  exec (ServeClient conn app) <> Returned None.
Proof.
  intros Hnil Hat.
  assert (Hnever : forall k, recvReady (exitAt k) = false).
  { intros k. now rewrite Hat, Hnil. }
  split; [unfold Shutdown; now rewrite Hnil |]. split.
  - unfold Serve.
    destruct (astate (acceptLoop _ _ _ _ _ _)) as [err |] eqn:Hst.
    + cbn [astate]. intros [= ->].
      destruct (acceptLoop_nil_return _ _ _ _ _ _ Hst) as (k & Hk & _).
      rewrite Hnever in Hk. discriminate.
    + rewrite Hst. discriminate.
  - intros Hret. destruct (ServeClient_nil_return _ _ Hret) as (k & Hk).
    rewrite Hnever in Hk. discriminate.
Qed.

End MoreSessions.

(** ** What reaches the wire *)

Section Wire.

Context {HandlerFn App : Type}.
Variable Apply : Server HandlerFn -> Request -> App -> result ReplyWriter * App.
Variable srv : Server HandlerFn.
Variable exitAt : nat -> Chan.

Local Abbreviation serveLoop := (serveLoop Apply srv exitAt).
Local Abbreviation ServeClient := (ServeClient Apply srv exitAt).

Lemma closed_snoc (k : ConnKind) (inb : list (result Request))
      (b : option (nat * error)) (j : list Event) (ev : Event) :
  closed (mkConn k inb b (j ++ [ev])) = (existsb isClose j || isClose ev)%bool.
Proof. unfold closed. simpl. rewrite existsb_app. simpl. now rewrite orb_false_r. Qed.

(** On an open connection whose peer takes every byte no write fails: the
    loop leaves the connection open and unlimited, and what its stretch of
    journal put on the wire is the encodings of the replies, in order. *)
Lemma serveLoop_unlimited (addr : string) (pending : list (result Request)) :
  forall (i : nat) (conn : Conn) (app : App),
    closed conn = false -> budget conn = None ->
    exists evs,
      journal (conn_of (serveLoop addr i pending conn app)) = journal conn ++ evs /\
      sentAll evs = wireAll (repliesOf evs) /\
      closed (conn_of (serveLoop addr i pending conn app)) = false /\
      budget (conn_of (serveLoop addr i pending conn app)) = None.
Proof.
  induction pending as [|[request | err] rest IH]; intros i conn app Hc Hb; simpl;
    destruct (recvReady (exitAt i)) eqn:Hex; simpl;
    try (exists []; rewrite app_nil_r; repeat split; auto; discriminate).
  - destruct (Apply srv (setHost addr request) app) as [[reply | err] app'] eqn:Hap.
    + unfold WriteTo.
      rewrite transmit_unlimited
        by (rewrite ?closed_logParse; assumption || reflexivity).
      cbv beta iota zeta.
      set (conn' := mkConn _ _ _ _).
      assert (Hc' : closed conn' = false).
      { unfold conn'. simpl. rewrite closed_snoc.
        change (existsb isClose (journal conn ++ [EvParse (Ok request)]))
          with (closed (logParse (Ok request) rest conn)).
        now rewrite closed_logParse, Hc. }
      destruct (IH (S i) conn' app' Hc' eq_refl) as (evs & Hj & Hs & Hcl & Hbu).
      exists (EvParse (Ok request)
                :: EvReply (setHost addr request) reply (wire reply) None :: evs).
      split; [| split; [| split; [exact Hcl | exact Hbu]]].
      * rewrite Hj. unfold conn'. simpl. now rewrite <- !app_assoc.
      * simpl. fold (sentAll evs). fold (wireAll (repliesOf evs)). now rewrite Hs.
    + exists [EvParse (Ok request)]. simpl.
      split; [reflexivity |]. split; [reflexivity |].
      split; [now rewrite closed_logParse | exact Hb].
  - exists [EvParse (Err err)]. simpl.
    split; [reflexivity |]. split; [reflexivity |].
    split; [now rewrite closed_logParse | exact Hb].
Qed.

(** The bytes of a session.  On an open connection whose peer takes every
    byte, what a session puts on the wire is the encodings of the replies
    [Apply] returned, one after the other and nothing between them,
    followed by the one error line when the session returned an error, and
    by nothing when it returned on shutdown or waits. *)
Theorem session_wire (conn : Conn) (app : App) :
  closed conn = false -> budget conn = None ->
  exists evs sent,
    journal (conn_of (ServeClient conn app)) =
      journal conn ++ evs ++ lastWords (exec (ServeClient conn app)) sent /\
    forallb isTraffic evs = true /\
    written (conn_of (ServeClient conn app)) =
      written conn +:+ wireAll (repliesOf evs) +:+
      match exec (ServeClient conn app) with
      | Returned (Some e) => "-" +:+ e +:+ LF
      | _ => ""
      end.
Proof.
  intros Hc Hb.
  assert (Hwr : forall c, written c = sentAll (journal c)) by reflexivity.
  destruct (clientAddr conn) as [addr | e] eqn:Hca.
  - rewrite ServeClient_unfold with (addr := addr) by assumption. cbv zeta.
    destruct (serveLoop_unlimited addr (inbound conn) 0 conn app Hc Hb)
      as (evs & Hj & Hs & Hcl & Hbu).
    destruct (serveLoop_account Apply srv exitAt addr 0 conn app eq_refl)
      as (evs' & Hj' & Htr & _).
    assert (evs' = evs) as -> by (rewrite Hj in Hj'; now apply app_inv_head in Hj').
    destruct (exec (serveLoop addr 0 (inbound conn) conn app)) as [[e |] |] eqn:Hx;
      cbn [exec conn_of app_of].
    + destruct (deferred_error e (conn_of (serveLoop addr 0 (inbound conn) conn app)))
        as (sent & Hd & _ & Hsent).
      specialize (Hsent Hcl Hbu). subst sent.
      exists evs, ("-" +:+ e +:+ LF). rewrite !Hwr, Hd, Hj, <- app_assoc.
      split; [reflexivity |]. split; [exact Htr |].
      rewrite !sentAll_app, Hs. simpl. now rewrite append_empty_r.
    + exists evs, "". unfold deferred, Close. rewrite !Hwr. simpl.
      rewrite Hj, <- app_assoc.
      split; [reflexivity |]. split; [exact Htr |].
      rewrite !sentAll_app, Hs. reflexivity.
    + exists evs, "". rewrite Hx, !Hwr, Hj. simpl. rewrite app_nil_r.
      split; [reflexivity |]. split; [exact Htr |].
      now rewrite sentAll_app, Hs, append_empty_r.
  - assert (Hk : kind conn = UnixConn (Err e)).
    { unfold clientAddr in Hca. destruct (kind conn); congruence. }
    rewrite (ServeClient_file_error Apply srv exitAt conn app Hk).
    cbn [exec conn_of app_of].
    destruct (deferred_error e conn) as (sent & Hd & _ & Hsent).
    specialize (Hsent Hc Hb). subst sent.
    exists [], ("-" +:+ e +:+ LF). rewrite !Hwr, Hd. simpl.
    split; [reflexivity |]. split; [reflexivity |].
    rewrite sentAll_app. simpl. now rewrite append_empty_r.
Qed.

End Wire.

(** ** From construction to the bound address *)

Section Startup.

Context {Value HandlerFn : Type}.
Variable createHandlerFn :
  Server HandlerFn -> Handler Value -> Value -> result HandlerFn.
Variable Register : string -> HandlerFn -> Server HandlerFn -> Server HandlerFn.

(** Where a server built by [NewServer] listens, for a [Register] that
    leaves transport and address alone.  A stream-socket server always
    binds [host:port] as configured, an empty host or a zero port included:
    the [":6389"] default of [ListenAndServe] is out of its reach.  A
    ["unix"] server binds the configured host, and ["/tmp/redis.sock"] when
    that is empty. *)
Theorem NewServer_bind_address
        (netListen : string -> string -> result (list (result Conn)))
        (exitAt : nat -> Chan) (c : Config Value) (srv : Server HandlerFn)
        (a : Acceptor HandlerFn) :
  (forall name fn s, Proto (Register name fn s) = Proto s /\
                     Addr (Register name fn s) = Addr s) ->
  NewServer createHandlerFn Register c = Done (Ok srv) ->
  snd (ListenAndServe netListen srv exitAt) = Ok a ->
  network (listener_of a) = (if String.eqb (proto c) "" then "tcp" else proto c) /\
  laddr (listener_of a) =
    if String.eqb (proto c) "unix"
    then (if String.eqb (host c) "" then "/tmp/redis.sock" else host c)
    else host c +:+ ":" +:+ itoa (port c).
Proof.
  intros Hreg Hnew Hbind.
  rewrite NewServer_unfold in Hnew.
  destruct (registerMethods _ _ _ _ _) as [[srv0 | e] | msg] eqn:Hrm;
    try discriminate.
  injection Hnew as <-.
  destruct (registerMethods_keeps_address _ _ _ _ Hreg _ Hrm) as [Hp Ha].
  rewrite ListenAndServe_unfold in Hbind. cbv zeta in Hbind.
  change (Proto (withExitChan ChOpen srv0)) with (Proto srv0) in Hbind.
  change (Addr (withExitChan ChOpen srv0)) with (Addr srv0) in Hbind.
  destruct (netListen _ _) as [arrivals | e]; [| discriminate].
  simpl in Hbind. injection Hbind as <-.
  match goal with
  | |- context [Serve ?s exitAt ?l] =>
    destruct (Serve_frame s exitAt l) as (_ & -> & -> & _)
  end.
  simpl. rewrite Hp, Ha. unfold blank.
  destruct (String.eqb_spec (proto c) "unix") as [Hux | Hux]; simpl.
  - rewrite Hux. simpl. split; [reflexivity |].
    destruct (String.eqb (host c) ""); reflexivity.
  - split; [reflexivity |].
    assert (Hne : String.eqb (host c +:+ ":" +:+ itoa (port c)) "" = false).
    { destruct (host c); reflexivity. }
    now rewrite Hne.
Qed.

End Startup.

(** ** The bound address, from the server and from the configuration *)

Section BindAddress.

Context {Value HandlerFn : Type}.
Variable createHandlerFn :
  Server HandlerFn -> Handler Value -> Value -> result HandlerFn.
Variable Register : string -> HandlerFn -> Server HandlerFn -> Server HandlerFn.

(** What [NewServer] stores as transport and address, for a [Register]
    that leaves both alone. *)
Lemma NewServer_address (c : Config Value) (srv : Server HandlerFn) :
  (forall name fn s, Proto (Register name fn s) = Proto s /\
                     Addr (Register name fn s) = Addr s) ->
  NewServer createHandlerFn Register c = Done (Ok srv) ->
  Proto srv = proto c /\
  Addr srv = if String.eqb (proto c) "unix" then host c
             else host c +:+ ":" +:+ itoa (port c).
Proof.
  intros Hreg Hnew. rewrite NewServer_unfold in Hnew.
  destruct (registerMethods _ _ _ _ _) as [[srv0 | e] | msg] eqn:Hrm;
    try discriminate.
  injection Hnew as <-.
  destruct (registerMethods_keeps_address _ _ _ _ Hreg _ Hrm) as [Hp Ha].
  change (Proto (withExitChan ChOpen srv0)) with (Proto srv0).
  change (Addr (withExitChan ChOpen srv0)) with (Addr srv0).
  rewrite Hp, Ha. unfold blank.
  destruct (String.eqb (proto c) "unix"); auto.
Qed.

(** C8 (amended): the defaults belong to an empty [Addr], not to a
    configuration without address.  First, on the server: whenever the bind
    succeeds [ListenAndServe] has bound ["/tmp/redis.sock"] if [Addr] is
    empty and the transport is ["unix"], [":6389"] if [Addr] is empty and
    the transport is anything else, and [Addr] itself if it is not empty.
    Second, on the configuration, for a server built by [NewServer] with a
    [Register] that leaves transport and address alone: with the host
    omitted a ["unix"] server binds ["/tmp/redis.sock"], but a server of
    any other transport binds [":"] followed by the port, not the default;
    with a host, a ["unix"] server binds the host and any other server
    binds [host:port]. *)
Theorem bind_address_by_configuration
        (netListen : string -> string -> result (list (result Conn)))
        (exitAt : nat -> Chan)
        (srv0 : Server HandlerFn) (a0 : Acceptor HandlerFn)
        (c : Config Value) (srv : Server HandlerFn) (a : Acceptor HandlerFn) :
  (snd (ListenAndServe netListen srv0 exitAt) = Ok a0 ->
   (Addr srv0 = "" -> Proto srv0 = "unix" ->
    network (listener_of a0) = "unix" /\ laddr (listener_of a0) = "/tmp/redis.sock") /\
   (Addr srv0 = "" -> Proto srv0 <> "unix" ->
    network (listener_of a0) =
      (if String.eqb (Proto srv0) "" then "tcp" else Proto srv0) /\
    laddr (listener_of a0) = ":6389") /\
   (Addr srv0 <> "" -> laddr (listener_of a0) = Addr srv0)) /\
  ((forall name fn s, Proto (Register name fn s) = Proto s /\
                      Addr (Register name fn s) = Addr s) ->
   NewServer createHandlerFn Register c = Done (Ok srv) ->
   snd (ListenAndServe netListen srv exitAt) = Ok a ->
   (host c = "" -> proto c = "unix" ->
    laddr (listener_of a) = "/tmp/redis.sock") /\
   (host c = "" -> proto c <> "unix" ->
    laddr (listener_of a) = ":" +:+ itoa (port c)) /\
   (host c <> "" -> proto c = "unix" -> laddr (listener_of a) = host c) /\
   (host c <> "" -> proto c <> "unix" ->
    laddr (listener_of a) = host c +:+ ":" +:+ itoa (port c))).
Proof.
  split.
  - apply ListenAndServe_bind_address.
  - intros Hreg Hnew Hbind.
    destruct (NewServer_address _ Hreg Hnew) as [Hp Ha].
    destruct (ListenAndServe_bind_address _ _ _ Hbind) as (Hsock & _ & Hkeep).
    rewrite Hp, Ha in Hsock. rewrite Ha in Hkeep.
    assert (Hstream : forall h, String.eqb (h +:+ ":" +:+ itoa (port c)) "" = false).
    { intros h. destruct h; reflexivity. }
    repeat split.
    + intros Hh Hux. rewrite Hux, Hh in Hsock. now apply Hsock.
    + intros Hh Hux. destruct (String.eqb_spec (proto c) "unix"); [contradiction |].
      rewrite Hkeep; [now rewrite Hh |].
      intros Hempty. specialize (Hstream (host c)).
      rewrite Hempty in Hstream. discriminate.
    + intros Hh Hux. rewrite Hux in Hkeep. simpl in Hkeep. now apply Hkeep.
    + intros Hh Hux. destruct (String.eqb_spec (proto c) "unix"); [contradiction |].
      apply Hkeep. intros Hempty. specialize (Hstream (host c)).
      rewrite Hempty in Hstream. discriminate.
Qed.

End BindAddress.

(** ** The sample handler *)

(** Round trip of the sample handler: after a run of [SET]s, [GET] of a key
    answers the value of the latest [SET] to that key, and what the handler
    held before when there was none; [GET] never returns an error. *)
Theorem GET_after_SETs (kvs : list (string * option string))
        (h h' : Sample.MyHandler) (key : string) :
  Sample.setAll h kvs = Done h' ->
  Sample.GET h' key =
  (match Sample.lastSet kvs key with
   | Some v => v
   | None => fst (Sample.GET h key)
   end, None).
Proof.
  revert h. induction kvs as [|[k v] rest IH]; intros h; simpl.
  - intros [= <-]. reflexivity.
  - destruct h as [[m |]]; simpl; [| discriminate].
    intros Hrest. rewrite (IH _ Hrest).
    destruct (Sample.lastSet rest key); [reflexivity |].
    unfold Sample.GET. simpl. f_equal.
    destruct (String.eqb_spec k key) as [-> | Hne].
    + now rewrite lookup_insert_eq.
    + now rewrite lookup_insert_ne.
Qed.


(** * The further properties at work *)

Lemma firstRound_loopTop (exitAt : nat -> Chan) (next : list (result Request)) :
  recvReady (exitAt 0%nat) = false ->
  loopTop Demo.Apply Demo.srv exitAt Demo.peer
          (Demo.client (Ok (Demo.req "GET") :: next)) tt
          1 (Demo.afterFirst next) tt.
Proof.
  intros Hex.
  eapply (top_round (request := Demo.req "GET") (rest := next)
                    (reply := mkReply ("+v" +:+ LF))).
  - apply top_start.
  - exact Hex.
  - reflexivity.
  - reflexivity.
  - reflexivity.
Defined.

Lemma registerMethods_filter_witness :
  registerMethods Demo.create Demo.Register Demo.kv Run.mixed
                  (blank Demo.Fn (Demo.config (Some Demo.kv))) =
  registerEveryOperation Demo.create Demo.Register Demo.kv
                         (List.filter eligible Run.mixed)
                         (blank Demo.Fn (Demo.config (Some Demo.kv))).
Proof.
  apply registerMethods_filter.
  unfold Run.mixed. repeat constructor; discriminate.
Defined.

Lemma NewServer_succeeds_witness :
  exists srv,
    NewServer Demo.create Demo.Register (Demo.config (Some Demo.kv)) = Done (Ok srv) /\
    exitChan srv = ChOpen.
Proof.
  apply NewServer_succeeds.
  - simpl. repeat constructor; discriminate.
  - simpl. repeat constructor; intros _ srv; eexists; reflexivity.
Defined.

Lemma NewServer_unix_ignores_port_witness :
  NewServer Demo.create Demo.Register
            (mkConfig (proto Run.unixConfig) (host Run.unixConfig) 0
                      (handler Run.unixConfig)) =
  NewServer Demo.create Demo.Register Run.unixConfig.
Proof.
  apply NewServer_unix_ignores_port. reflexivity.
Defined.

Lemma NewServer_bind_address_witness :
  network (listener_of (Serve Demo.srv Demo.never
                              (mkListener "tcp" "127.0.0.1:6389" [] false))) =
    (if String.eqb (proto (Demo.config (Some Demo.kv))) "" then "tcp"
     else proto (Demo.config (Some Demo.kv))) /\
  laddr (listener_of (Serve Demo.srv Demo.never
                            (mkListener "tcp" "127.0.0.1:6389" [] false))) =
    if String.eqb (proto (Demo.config (Some Demo.kv))) "unix"
    then (if String.eqb (host (Demo.config (Some Demo.kv))) ""
          then "/tmp/redis.sock" else host (Demo.config (Some Demo.kv)))
    else host (Demo.config (Some Demo.kv)) +:+ ":" +:+
         itoa (port (Demo.config (Some Demo.kv))).
Proof.
  apply (NewServer_bind_address Demo.create Demo.Register Demo.listen Demo.never
                                (Demo.config (Some Demo.kv)) (srv := Demo.srv)).
  - intros name fn s. split; reflexivity.
  - reflexivity.
  - reflexivity.
Defined.

Lemma Serve_keeps_accepting_witness :
  astate (Serve Demo.srv Demo.never Run.busy) = Blocked /\
  lclosed (listener_of (Serve Demo.srv Demo.never Run.busy)) = lclosed Run.busy /\
  length (spawned (Serve Demo.srv Demo.never Run.busy)) = length (backlog Run.busy).
Proof.
  apply Serve_keeps_accepting.
  - intros k _. reflexivity.
  - reflexivity.
Defined.

Lemma session_dispatches_in_order_witness :
  exists evs sent,
    journal (conn_of (ServeClient Demo.Apply Demo.srv Demo.never
               (Demo.client [Ok (Demo.req "GET"); Ok (Demo.req "FAIL")]) tt)) =
      journal (Demo.client [Ok (Demo.req "GET"); Ok (Demo.req "FAIL")]) ++ evs ++
      lastWords (exec (ServeClient Demo.Apply Demo.srv Demo.never
                         (Demo.client [Ok (Demo.req "GET"); Ok (Demo.req "FAIL")]) tt))
                sent /\
    replay Demo.Apply Demo.srv (map (setHost Demo.peer) (parsed evs)) tt =
      (repliesOf evs,
       app_of (ServeClient Demo.Apply Demo.srv Demo.never
                 (Demo.client [Ok (Demo.req "GET"); Ok (Demo.req "FAIL")]) tt)).
Proof.
  apply session_dispatches_in_order. reflexivity.
Defined.

Lemma session_settled_unless_error_witness :
  exists evs sent,
    journal (conn_of (ServeClient Demo.Apply Demo.srv Demo.never
               (Demo.client [Ok (Demo.req "GET"); Ok (Demo.req "NOPE")]) tt)) =
      journal (Demo.client [Ok (Demo.req "GET"); Ok (Demo.req "NOPE")]) ++ evs ++
      lastWords (exec (ServeClient Demo.Apply Demo.srv Demo.never
                         (Demo.client [Ok (Demo.req "GET"); Ok (Demo.req "NOPE")]) tt))
                sent /\
    settled Demo.peer evs /\
    (exec (ServeClient Demo.Apply Demo.srv Demo.never
             (Demo.client [Ok (Demo.req "GET"); Ok (Demo.req "NOPE")]) tt) = Blocked ->
     inbound (conn_of (ServeClient Demo.Apply Demo.srv Demo.never
                (Demo.client [Ok (Demo.req "GET"); Ok (Demo.req "NOPE")]) tt)) = [] /\
     closed (conn_of (ServeClient Demo.Apply Demo.srv Demo.never
               (Demo.client [Ok (Demo.req "GET"); Ok (Demo.req "NOPE")]) tt)) =
       closed (Demo.client [Ok (Demo.req "GET"); Ok (Demo.req "NOPE")])).
Proof.
  apply session_settled_unless_error.
  - reflexivity.
  - intros e. vm_compute. discriminate.
Defined.

Lemma file_error_ends_session_witness :
  exists sent,
    exec (ServeClient Demo.Apply Demo.srv Demo.never Run.noFile tt)
      = Returned (Some "too many open files") /\
    app_of (ServeClient Demo.Apply Demo.srv Demo.never Run.noFile tt) = tt /\
    inbound (conn_of (ServeClient Demo.Apply Demo.srv Demo.never Run.noFile tt))
      = inbound Run.noFile /\
    journal (conn_of (ServeClient Demo.Apply Demo.srv Demo.never Run.noFile tt)) =
      journal Run.noFile ++ [EvErrLine sent; EvClose] /\
    (closed Run.noFile = false -> budget Run.noFile = None ->
     sent = "-" +:+ "too many open files" +:+ LF).
Proof.
  apply file_error_ends_session. reflexivity.
Defined.

Lemma shutdown_ends_session_quietly_witness :
  exec (ServeClient Demo.Apply Demo.srv Run.stopAt1
          (Demo.client [Ok (Demo.req "GET"); Ok (Demo.req "GET")]) tt) = Returned None /\
  app_of (ServeClient Demo.Apply Demo.srv Run.stopAt1
            (Demo.client [Ok (Demo.req "GET"); Ok (Demo.req "GET")]) tt) = tt /\
  inbound (conn_of (ServeClient Demo.Apply Demo.srv Run.stopAt1
             (Demo.client [Ok (Demo.req "GET"); Ok (Demo.req "GET")]) tt)) =
    inbound (Demo.afterFirst [Ok (Demo.req "GET")]) /\
  journal (conn_of (ServeClient Demo.Apply Demo.srv Run.stopAt1
             (Demo.client [Ok (Demo.req "GET"); Ok (Demo.req "GET")]) tt)) =
    journal (Demo.afterFirst [Ok (Demo.req "GET")]) ++ [EvClose].
Proof.
  apply (shutdown_ends_session_quietly
           (Apply := Demo.Apply) (srv := Demo.srv) (exitAt := Run.stopAt1)
           (addr := Demo.peer) (i := 1%nat)
           (conn := Demo.afterFirst [Ok (Demo.req "GET")]) (app := tt)).
  - reflexivity.
  - apply firstRound_loopTop. reflexivity.
  - reflexivity.
Defined.

Lemma write_failure_ends_session_witness :
  exists sent sent',
    exec (ServeClient Demo.Apply Demo.srv Demo.never Run.narrow tt)
      = Returned (Some "broken pipe") /\
    app_of (ServeClient Demo.Apply Demo.srv Demo.never Run.narrow tt) = tt /\
    inbound (conn_of (ServeClient Demo.Apply Demo.srv Demo.never Run.narrow tt))
      = [Ok (Demo.req "GET")] /\
    journal (conn_of (ServeClient Demo.Apply Demo.srv Demo.never Run.narrow tt)) =
      journal Run.narrow ++
      [EvParse (Ok (Demo.req "GET"));
       EvReply (setHost Demo.peer (Demo.req "GET")) (mkReply ("+v" +:+ LF)) sent
               (Some "broken pipe");
       EvErrLine sent'; EvClose].
Proof.
  apply (write_failure_ends_session
           (Apply := Demo.Apply) (srv := Demo.srv) (exitAt := Demo.never)
           (addr := Demo.peer) (i := 0%nat) (conn := Run.narrow) (app := tt)
           (request := Demo.req "GET") (rest := [Ok (Demo.req "GET")])
           (reply := mkReply ("+v" +:+ LF)) (app' := tt)
           (conn' := snd (WriteTo (setHost Demo.peer (Demo.req "GET"))
                                  (mkReply ("+v" +:+ LF))
                                  (logParse (Ok (Demo.req "GET"))
                                            [Ok (Demo.req "GET")] Run.narrow)))).
  - reflexivity.
  - apply top_start.
  - reflexivity.
  - reflexivity.
  - reflexivity.
  - reflexivity.
Defined.

Lemma nil_return_means_shutdown_witness :
  (astate (Serve Demo.srv Run.stopAt1 Run.busy) = Returned None /\
   exists k, recvReady (Run.stopAt1 k) = true /\
             length (spawned (Serve Demo.srv Run.stopAt1 Run.busy)) = k) /\
  (exec (ServeClient Demo.Apply Demo.srv Run.stopAt1
           (Demo.client [Ok (Demo.req "GET"); Ok (Demo.req "GET")]) tt) = Returned None /\
   exists k, recvReady (Run.stopAt1 k) = true).
Proof.
  destruct (nil_return_means_shutdown Demo.Apply Demo.srv Run.stopAt1 Run.busy
              (Demo.client [Ok (Demo.req "GET"); Ok (Demo.req "GET")]) tt)
    as [Ha Hs].
  split; split; [reflexivity | apply Ha; reflexivity
                 | reflexivity | apply Hs; reflexivity].
Defined.

Lemma nil_exitChan_cannot_shut_down_witness :
  Shutdown Run.handMade = Panic "close of nil channel" /\
  astate (Serve Run.handMade Run.nilAt Run.busy) <> Returned None /\
  exec (ServeClient Demo.Apply Run.handMade Run.nilAt
          (Demo.client [Ok (Demo.req "GET")]) tt) <> Returned None.
Proof.
  apply (nil_exitChan_cannot_shut_down Demo.Apply Run.handMade Run.nilAt).
  - reflexivity.
  - intros i. reflexivity.
Defined.

Lemma session_wire_witness :
  exists evs sent,
    journal (conn_of (ServeClient Demo.Apply Demo.srv Demo.never
               (Demo.client [Ok (Demo.req "GET"); Ok (Demo.req "NOPE"); Err "EOF"]) tt)) =
      journal (Demo.client [Ok (Demo.req "GET"); Ok (Demo.req "NOPE"); Err "EOF"])
      ++ evs ++
      lastWords (exec (ServeClient Demo.Apply Demo.srv Demo.never
                   (Demo.client [Ok (Demo.req "GET"); Ok (Demo.req "NOPE"); Err "EOF"]) tt))
                sent /\
    forallb isTraffic evs = true /\
    written (conn_of (ServeClient Demo.Apply Demo.srv Demo.never
               (Demo.client [Ok (Demo.req "GET"); Ok (Demo.req "NOPE"); Err "EOF"]) tt)) =
      written (Demo.client [Ok (Demo.req "GET"); Ok (Demo.req "NOPE"); Err "EOF"])
      +:+ wireAll (repliesOf evs) +:+
      match exec (ServeClient Demo.Apply Demo.srv Demo.never
                    (Demo.client [Ok (Demo.req "GET"); Ok (Demo.req "NOPE"); Err "EOF"]) tt)
      with
      | Returned (Some e) => "-" +:+ e +:+ LF
      | _ => ""
      end.
Proof.
  apply session_wire; reflexivity.
Defined.

Lemma GET_after_SETs_witness :
  Sample.setAll Run.fresh Run.pairs =
    Done (Sample.mkMyHandler (Some (<["a" := Some "2"]> (<["b" := None]> (<["a" := Some "1"]> ∅))))) /\
  Sample.GET (Sample.mkMyHandler
                (Some (<["a" := Some "2"]> (<["b" := None]> (<["a" := Some "1"]> ∅)))))
             "a" =
  (match Sample.lastSet Run.pairs "a" with
   | Some v => v
   | None => fst (Sample.GET Run.fresh "a")
   end, None).
Proof.
  assert (H : Sample.setAll Run.fresh Run.pairs =
              Done (Sample.mkMyHandler
                      (Some (<["a" := Some "2"]>
                               (<["b" := None]> (<["a" := Some "1"]> ∅))))))
    by reflexivity.
  split; [exact H |].
  exact (GET_after_SETs Run.pairs Run.fresh "a" H).
Defined.


(** C8, read as "a configuration without address gets the fixed default",
    fails on this run: the configuration names the stream transport and
    omits host and port; [NewServer] stores [":0"] as the address, and
    [ListenAndServe] binds that, not [":6389"]. *)
Lemma configured_stream_server_misses_default :
  host Run.noAddress = "" /\
  NewServer Demo.create Demo.Register Run.noAddress = Done (Ok Run.streamSrv) /\
  Addr Run.streamSrv = ":0" /\
  snd (ListenAndServe Demo.listen Run.streamSrv Demo.never) =
    Ok (Serve Run.streamSrv Demo.never (mkListener "tcp" ":0" [] false)) /\
  laddr (listener_of (Serve Run.streamSrv Demo.never
                            (mkListener "tcp" ":0" [] false))) = ":0" /\
  laddr (listener_of (Serve Run.streamSrv Demo.never
                            (mkListener "tcp" ":0" [] false))) <> ":6389".
Proof.
  repeat split; try reflexivity. vm_compute. discriminate.
Qed.

Lemma bind_address_by_configuration_witness :
  (network (listener_of (Serve Demo.unixSrv Demo.never Demo.idle)) = "unix" /\
   laddr (listener_of (Serve Demo.unixSrv Demo.never Demo.idle)) = "/tmp/redis.sock") /\
  laddr (listener_of (Serve Run.streamSrv Demo.never
                            (mkListener "tcp" ":0" [] false))) =
    ":" +:+ itoa (port Run.noAddress).
Proof.
  destruct (bind_address_by_configuration
              Demo.create Demo.Register Demo.listen Demo.never
              Demo.unixSrv (Serve Demo.unixSrv Demo.never Demo.idle)
              Run.noAddress Run.streamSrv
              (Serve Run.streamSrv Demo.never (mkListener "tcp" ":0" [] false)))
    as [Hsrv Hcfg].
  split.
  - destruct (Hsrv eq_refl) as [Hunix _]. apply Hunix; reflexivity.
  - destruct Hcfg as (_ & Hstream & _).
    + intros name fn s. split; reflexivity.
    + reflexivity.
    + reflexivity.
    + apply Hstream; [reflexivity | discriminate].
Defined.
